(** * vi-firmware: the CAN signal translation core (src/can/canread.cpp)

    A shallow embedding of [openxc::can::read] — the decode / rate-gate /
    handler / emit pipeline and the raw passthrough path — together with the
    properties its specification states about it.

    Conventions of the embedding:
    - [float] is IEEE-754 binary32 ([spec_float] at precision 24, emax 128);
      [uint64_t] and [int] values are [Z];
    - a [CanSignal*] is an index into the signal array held by the world, a
      [CanMessageDefinition*] an index into the message table; a pointer that
      may be [NULL] is an [option];
    - a [bool* send] argument is passed in and handed back with the result;
    - every function runs in the monad [M]: it reads and writes the [World]
      and either returns or hits undefined behaviour ([Undefined]);
    - code that lives outside canread.cpp (timer, bit fields, message table,
      cJSON, nanopb) is reached through the class [Externals]. *)

From Stdlib Require Import ZArith String Ascii Bool Lia DecimalString.
From Stdlib Require Import Floats.SpecFloat.
From stdpp Require Import base option list.

Local Open Scope Z_scope.
Local Open Scope string_scope.

(** ** Numbers *)

Definition float := spec_float.
Definition double := spec_float.

Definition fmul : float -> float -> float := SFmul 24 128.
Definition fadd : float -> float -> float := SFadd 24 128.

(** C's [==] and [!=] on floating-point operands: a NaN differs from
    everything, itself included; the two zeros are equal. *)
Definition feq (x y : spec_float) : bool := SFeqb x y.
Definition fne (x y : spec_float) : bool := negb (SFeqb x y).

(** Storing into a [uint64_t]. *)
Definition to_uint64 (n : Z) : Z := n mod 2 ^ 64.

(** Integer to [float] / [double] conversion (round to nearest even). *)
Definition float_of_Z (n : Z) : float := binary_normalize 24 128 n 0 false.
Definition double_of_Z (n : Z) : double := binary_normalize 53 1024 n 0 false.

(** [float] to [double] promotion: the value is kept, the mantissa is
    re-aligned to 53 bits. *)
Definition double_of_float (x : float) : double :=
  match x with
  | S754_finite s m e => binary_normalize 53 1024 (cond_Zopp s (Zpos m)) e s
  | _ => x
  end.

Definition fzero : float := S754_zero false.

(** ** Data model *)

Inductive OutputFormat := JSON | PROTO.

Definition OutputFormat_eqb (a b : OutputFormat) : bool :=
  match a, b with
  | JSON, JSON | PROTO, PROTO => true
  | _, _ => false
  end.

(** The structs of canutil.h, with the fields canread.cpp reads and writes
    and those the specification lists (section 3). *)
Record CanBus := { address : Z }.

(** Modelled from the spec: the [FrequencyClock] struct of util/timer.h
    ("tick-clock state: interval + last-fire timestamp"). *)
Record FrequencyClock := { interval : Z; lastFire : Z }.

Record CanSignalState := { state_value : Z; state_name : string }.

Module CanSignal.
Record t := {
  genericName : string;
  bitPosition : Z;
  bitSize : Z;
  factor : float;
  offset : float;
  minValue : float;
  maxValue : float;
  frequencyClock : FrequencyClock;
  sendSame : bool;
  forceSendChanged : bool;
  states : list CanSignalState;
  received : bool;
  lastValue : float
}.

Definition set_frequencyClock (c : FrequencyClock) (s : t) : t :=
  {| genericName := genericName s; bitPosition := bitPosition s;
     bitSize := bitSize s; factor := factor s; offset := offset s;
     minValue := minValue s; maxValue := maxValue s;
     frequencyClock := c; sendSame := sendSame s;
     forceSendChanged := forceSendChanged s; states := states s;
     received := received s; lastValue := lastValue s |}.

Definition set_received (b : bool) (s : t) : t :=
  {| genericName := genericName s; bitPosition := bitPosition s;
     bitSize := bitSize s; factor := factor s; offset := offset s;
     minValue := minValue s; maxValue := maxValue s;
     frequencyClock := frequencyClock s; sendSame := sendSame s;
     forceSendChanged := forceSendChanged s; states := states s;
     received := b; lastValue := lastValue s |}.

Definition set_lastValue (v : float) (s : t) : t :=
  {| genericName := genericName s; bitPosition := bitPosition s;
     bitSize := bitSize s; factor := factor s; offset := offset s;
     minValue := minValue s; maxValue := maxValue s;
     frequencyClock := frequencyClock s; sendSame := sendSame s;
     forceSendChanged := forceSendChanged s; states := states s;
     received := received s; lastValue := v |}.
End CanSignal.

Module CanMessageDefinition.
Record t := {
  bus : CanBus;
  id : Z;
  frequencyClock : FrequencyClock;
  forceSendChanged : bool;
  lastValue : Z
}.

Definition set_frequencyClock (c : FrequencyClock) (m : t) : t :=
  {| bus := bus m; id := id m; frequencyClock := c;
     forceSendChanged := forceSendChanged m; lastValue := lastValue m |}.

Definition set_lastValue (v : Z) (m : t) : t :=
  {| bus := bus m; id := id m; frequencyClock := frequencyClock m;
     forceSendChanged := forceSendChanged m; lastValue := v |}.
End CanMessageDefinition.

(** The nanopb structs of openxc.pb.h, as canread.cpp fills them in: every
    leaf carries its [has_] presence flag. *)
Inductive VehicleMessage_Type := Type_RAW | Type_STRING | Type_NUM | Type_BOOL.

Record RawMessage := {
  has_bus : bool; raw_bus : Z;
  has_message_id : bool; message_id : Z;
  has_data : bool; raw_data : Z
}.

Record StringMessage := {
  string_has_name : bool; string_name : string;
  string_has_value : bool; string_value : string
}.

Record NumericalMessage := {
  numerical_has_name : bool; numerical_name : string;
  numerical_has_value : bool; numerical_value : float
}.

Record BooleanMessage := {
  boolean_has_name : bool; boolean_name : string;
  boolean_has_value : bool; boolean_value : bool
}.

Record VehicleMessage := {
  has_type : bool; type : VehicleMessage_Type;
  has_raw_message : bool; raw_message : RawMessage;
  has_string_message : bool; string_message : StringMessage;
  has_numerical_message : bool; numerical_message : NumericalMessage;
  has_boolean_message : bool; boolean_message : BooleanMessage
}.

(** [= {0}] *)
Definition RawMessage_zero : RawMessage :=
  {| has_bus := false; raw_bus := 0; has_message_id := false; message_id := 0;
     has_data := false; raw_data := 0 |}.
Definition StringMessage_zero : StringMessage :=
  {| string_has_name := false; string_name := "";
     string_has_value := false; string_value := "" |}.
Definition NumericalMessage_zero : NumericalMessage :=
  {| numerical_has_name := false; numerical_name := "";
     numerical_has_value := false; numerical_value := fzero |}.
Definition BooleanMessage_zero : BooleanMessage :=
  {| boolean_has_name := false; boolean_name := "";
     boolean_has_value := false; boolean_value := false |}.

(** A cJSON tree, as far as canread.cpp builds one. *)
#[warnings="-register-all"] Inductive cJSON :=
| cJSON_Number (d : double)
| cJSON_Bool (b : bool)
| cJSON_String (s : string)
| cJSON_Object (fields : list (string * cJSON)).

(** ** The world *)

Record Pipeline := {
  outputFormat : OutputFormat;
  sent : list string      (* what pipeline::sendMessage was handed, oldest first *)
}.

Record World := {
  uptime : Z;                                   (* the system timer, in ms *)
  signals : list CanSignal.t;                   (* the [signals] array *)
  messages : list CanMessageDefinition.t;       (* the message table *)
  pipeline : Pipeline;
  log : list string;                            (* debug() output, oldest first *)
  heap : list bool                              (* outcomes of the coming
                                                   allocation requests, [false] =
                                                   out of memory; once exhausted
                                                   every request succeeds *)
}.

Definition set_signals (l : list CanSignal.t) (w : World) : World :=
  {| uptime := uptime w; signals := l; messages := messages w;
     pipeline := pipeline w; log := log w; heap := heap w |}.
Definition set_messages (l : list CanMessageDefinition.t) (w : World) : World :=
  {| uptime := uptime w; signals := signals w; messages := l;
     pipeline := pipeline w; log := log w; heap := heap w |}.
Definition set_pipeline (p : Pipeline) (w : World) : World :=
  {| uptime := uptime w; signals := signals w; messages := messages w;
     pipeline := p; log := log w; heap := heap w |}.
Definition set_log (l : list string) (w : World) : World :=
  {| uptime := uptime w; signals := signals w; messages := messages w;
     pipeline := pipeline w; log := l; heap := heap w |}.
Definition set_heap (h : list bool) (w : World) : World :=
  {| uptime := uptime w; signals := signals w; messages := messages w;
     pipeline := pipeline w; log := log w; heap := h |}.

(** ** The monad *)

Inductive outcome (A : Type) :=
| Ok (a : A) (w : World)
| Undefined.
Arguments Ok {A} a w.
Arguments Undefined {A}.

Definition M (A : Type) : Type := World -> outcome A.

Definition ret {A} (a : A) : M A := fun w => Ok a w.
Definition bind {A B} (m : M A) (k : A -> M B) : M B :=
  fun w => match m w with
           | Ok a w' => k a w'
           | Undefined => Undefined
           end.
Definition undefined {A} : M A := fun _ => Undefined.

Declare Scope m_scope.
Delimit Scope m_scope with M.
Notation "'let*' x ':=' m 'in' k" := (bind m (fun x => k))
  (at level 10, x pattern, m at level 100, k at level 200) : m_scope.
Notation "m >> k" := (bind m (fun _ => k))
  (at level 100, k at level 200, right associativity) : m_scope.
Local Open Scope m_scope.

Definition gets {A} (f : World -> A) : M A := fun w => Ok (f w) w.
Definition modify (f : World -> World) : M unit := fun w => Ok tt (f w).

(** Dereferencing: [NULL] and out-of-range pointers are undefined. *)
Definition deref {A} (p : option A) : M A :=
  match p with
  | Some a => ret a
  | None => undefined
  end.

Definition load_signal (p : nat) : M CanSignal.t :=
  let* l := gets signals in deref (l !! p).
Definition store_signal (p : nat) (f : CanSignal.t -> CanSignal.t) : M unit :=
  let* s := load_signal p in
  modify (fun w => set_signals (<[p := f s]> (signals w)) w).

Definition load_message (p : nat) : M CanMessageDefinition.t :=
  let* l := gets messages in deref (l !! p).
Definition store_message (p : nat)
    (f : CanMessageDefinition.t -> CanMessageDefinition.t) : M unit :=
  let* m := load_message p in
  modify (fun w => set_messages (<[p := f m]> (messages w)) w).

(** [debug(fmt, ...)]: the log keeps the format text. *)
Definition debug (fmt : string) : M unit :=
  modify (fun w => set_log (log w ++ [fmt]) w).
Definition debugNoNewline (fmt : string) : M unit := debug fmt.

(** [pipeline::sendMessage(pipeline, bytes, length)] *)
Definition pipeline_sendMessage (bytes : string) : M unit :=
  modify (fun w =>
    set_pipeline {| outputFormat := outputFormat (pipeline w);
                    sent := sent (pipeline w) ++ [bytes] |} w).

(** One allocation request: [true] when memory was granted. The request
    consumes the head of the script; an exhausted script grants. *)
Definition alloc : M bool :=
  fun w => Ok (hd true (heap w)) (set_heap (tl (heap w)) w).

(** The next [n] allocation requests are granted. *)
Definition granted (n : nat) (h : list bool) : bool :=
  forallb (fun b => b) (firstn n h).

(** ** What canread.cpp calls but does not define *)

Class Externals := {
  (** util/bitfield: [getBitField(data, startBit, numBits, bigEndian)] *)
  getBitField : Z -> Z -> Z -> bool -> Z;
  (** util/timer: [shouldTick(clock)] at the given system time; yields the
      verdict and the clock as the call leaves it *)
  shouldTick : Z -> FrequencyClock -> bool * FrequencyClock;
  (** canutil: [lookupSignalState(value, signal, signals, signalCount)],
      [NULL] when no state matches *)
  lookupSignalState :
    float -> CanSignal.t -> list CanSignal.t -> option CanSignalState;
  (** canutil: [lookupMessageDefinition(bus, id, messages, messageCount)],
      [NULL] when the table has no entry *)
  lookupMessageDefinition :
    CanBus -> Z -> list CanMessageDefinition.t -> option nat;
  (** canutil: [registerMessageDefinition(bus, id, messages, messageCount)];
      yields its return value and the table as the call leaves it *)
  registerMessageDefinition :
    CanBus -> Z -> list CanMessageDefinition.t ->
    bool * list CanMessageDefinition.t;
  (** cJSON: the text [cJSON_PrintUnformatted] produces when it has memory *)
  cJSON_render : cJSON -> string;
  (** nanopb: [pb_encode_delimited] into a buffer of
      [openxc_VehicleMessage_size] bytes; [None] when it reports failure *)
  pb_encode_delimited : VehicleMessage -> option string;
  (** openxc.pb.h: sizes of the [name] and [value] character arrays *)
  name_size : nat;
  value_size : nat
}.

Definition BUS_FIELD_NAME := "bus".
Definition ID_FIELD_NAME := "id".
Definition DATA_FIELD_NAME := "data".
Definition NAME_FIELD_NAME := "name".
Definition VALUE_FIELD_NAME := "value".
Definition EVENT_FIELD_NAME := "event".

Definition CRLF : string := String "013" (String "010" EmptyString).

(** ** libc and cJSON, as canread.cpp uses them *)

(** [strcpy(dst, src)] into a character array of [size] bytes. *)
Definition strcpy (size : nat) (src : string) : M string :=
  if Nat.ltb (String.length src) size then ret src else undefined.

(** [strlen(p)], [strncpy(dst, p, strlen(p))]: the text behind [p]. *)
Definition strlen (p : option string) : M nat :=
  let* text := deref p in ret (String.length text).

Definition cJSON_CreateObject : M (option cJSON) :=
  let* ok := alloc in ret (if ok then Some (cJSON_Object []) else None).
Definition cJSON_CreateNumber (d : double) : M (option cJSON) :=
  let* ok := alloc in ret (if ok then Some (cJSON_Number d) else None).
Definition cJSON_CreateBool (b : bool) : M (option cJSON) :=
  let* ok := alloc in ret (if ok then Some (cJSON_Bool b) else None).
Definition cJSON_CreateString (s : string) : M (option cJSON) :=
  let* ok := alloc in ret (if ok then Some (cJSON_String s) else None).

(** [cJSON_AddItemToObject(object, key, item)]: a [NULL] item is skipped;
    otherwise the item is appended to the children of [object]. The object
    is handed back with its new field. *)
Definition cJSON_AddItemToObject (object : option cJSON) (key : string)
    (item : option cJSON) : M (option cJSON) :=
  match item with
  | None => ret object
  | Some it =>
      match object with
      | Some (cJSON_Object fields) =>
          ret (Some (cJSON_Object (fields ++ [(key, it)])))
      | _ => undefined
      end
  end.

Definition cJSON_AddNumberToObject (object : option cJSON) (key : string)
    (n : double) : M (option cJSON) :=
  let* item := cJSON_CreateNumber n in cJSON_AddItemToObject object key item.
Definition cJSON_AddStringToObject (object : option cJSON) (key : string)
    (s : string) : M (option cJSON) :=
  let* item := cJSON_CreateString s in cJSON_AddItemToObject object key item.

Section Canread.
Context `{E : Externals}.

Definition cJSON_PrintUnformatted (item : cJSON) : M (option string) :=
  let* ok := alloc in ret (if ok then Some (cJSON_render item) else None).

(** ** canread.cpp *)

Definition sendJSON (root : option cJSON) : M unit :=
  match root with
  | None => debug "JSON object is NULL -- probably OOM"
  | Some r =>
      let* message := cJSON_PrintUnformatted r in
      (* strlen(message), strncpy(.., message, ..): [message] is read here *)
      let* len := strlen message in
      let* text := deref message in
      let messageWithDelimeter := String.append text CRLF in
      match message with
      | Some _ => pipeline_sendMessage messageWithDelimeter
      | None => debug "Converting JSON to string failed -- probably OOM"
      end
      (* cJSON_Delete(root); free(message); *)
  end.

Fixpoint debugBytes (buffer : string) : M unit :=
  match buffer with
  | EmptyString => ret tt
  | String _ rest => debugNoNewline "%02x " >> debugBytes rest
  end.

Definition sendProtobuf (message : option VehicleMessage) : M unit :=
  match message with
  | None => debug "Message object is NULL"
  | Some m =>
      match pb_encode_delimited m with
      | Some buffer =>
          debugNoNewline "Serialized to: " >>
          debugBytes buffer >>
          debug "" >>
          pipeline_sendMessage buffer
      | None => debug "Error encoding protobuf: %s"
      end
  end.

Definition sendJsonMessage (name : string) (value event : option cJSON)
    : M unit :=
  let* root := cJSON_CreateObject in
  match root with
  | Some _ =>
      let* root := cJSON_AddStringToObject root NAME_FIELD_NAME name in
      let* root := cJSON_AddItemToObject root VALUE_FIELD_NAME value in
      let* root :=
        match event with
        | Some _ => cJSON_AddItemToObject root EVENT_FIELD_NAME event
        | None => ret root
        end in
      sendJSON root
  | None => debug "Unable to allocate a cJSON object - probably OOM"
  end.

(** [sendMessage(name, value, event, pipeline)] *)
Definition sendMessage_fields (name : string) (value event : option cJSON)
    : M unit :=
  let* fmt := gets (fun w => outputFormat (pipeline w)) in
  if OutputFormat_eqb fmt JSON then sendJsonMessage name value event
  else ret tt.

(** [sendMessage(message, pipeline)]. The locals [name] and [value] start
    out uninitialised ([None]); the [default] arm leaves them so, and the
    call after the [switch] reads them. *)
Definition sendMessage (message : option VehicleMessage) : M unit :=
  let* fmt := gets (fun w => outputFormat (pipeline w)) in
  if OutputFormat_eqb fmt PROTO then sendProtobuf message
  else
    let* m := deref message in
    let* locals :=
      match type m with
      | Type_NUM =>
          let* value :=
            cJSON_CreateNumber
              (double_of_float (numerical_value (numerical_message m))) in
          ret (Some (numerical_name (numerical_message m), value))
      | Type_BOOL =>
          let* value := cJSON_CreateBool (boolean_value (boolean_message m)) in
          ret (Some (boolean_name (boolean_message m), value))
      | Type_STRING =>
          let* value := cJSON_CreateString (string_value (string_message m)) in
          ret (Some (string_name (string_message m), value))
      | _ =>
          debug "Unrecognized message type, can't output JSON" >>
          ret None
      end in
    let* (name, value) := deref locals in
    sendJsonMessage name value None.

(** [time::shouldTick(&signal->frequencyClock)] *)
Definition shouldTick_signal (signal : nat) : M bool :=
  let* s := load_signal signal in
  let* now := gets uptime in
  let r := shouldTick now (CanSignal.frequencyClock s) in
  store_signal signal (CanSignal.set_frequencyClock r.2) >>
  ret r.1.

(** [time::shouldTick(&message->frequencyClock)] *)
Definition shouldTick_message (message : nat) : M bool :=
  let* m := load_message message in
  let* now := gets uptime in
  let r := shouldTick now (CanMessageDefinition.frequencyClock m) in
  store_message message (CanMessageDefinition.set_frequencyClock r.2) >>
  ret r.1.

Definition decodeSignal (signal : nat) (data : Z) : M float :=
  let* s := load_signal signal in
  let rawValue :=
    to_uint64 (getBitField data (CanSignal.bitPosition s)
                 (CanSignal.bitSize s) true) in
  ret (fadd (fmul (float_of_Z rawValue) (CanSignal.factor s))
          (CanSignal.offset s)).

(** [preTranslate(signal, data, send)]. The inner test reads [send], the
    pointer, not [*send]; every caller passes the address of a local, so that
    operand is true. *)
Definition preTranslate (signal : nat) (data : Z) (send : bool)
    : M (float * bool) :=
  let* value := decodeSignal signal data in
  let* tick := shouldTick_signal signal in
  let* s := load_signal signal in
  if tick || (fne value (CanSignal.lastValue s)
              && CanSignal.forceSendChanged s) then
    let send_is_not_NULL := true in
    if send_is_not_NULL
       && (negb (CanSignal.received s) || CanSignal.sendSame s
           || fne value (CanSignal.lastValue s)) then
      store_signal signal (CanSignal.set_received true) >>
      ret (value, send)
    else ret (value, false)
  else ret (value, false).

Definition postTranslate (signal : nat) (value : float) : M unit :=
  store_signal signal (CanSignal.set_lastValue value).

(** A handler [(signal, signals, signalCount, value, send)]: [signals] and
    [signalCount] designate the world's signal array. *)
Definition Handler (A : Type) : Type := nat -> float -> bool -> M (A * bool).

Definition passthroughHandler : Handler float :=
  fun signal value send => ret (value, send).

Definition booleanHandler : Handler bool :=
  fun signal value send =>
    ret (if feq (double_of_float value) (double_of_Z 0) then false else true,
         send).

Definition ignoreHandler : Handler float :=
  fun signal value send => ret (value, false).

Definition stateHandler : Handler (option string) :=
  fun signal value send =>
    let* s := load_signal signal in
    let* l := gets signals in
    match lookupSignalState value s l with
    | Some signalState => ret (Some (state_name signalState), send)
    | None => ret (None, false)
    end.

Definition sendNumericalMessage (name : string) (value : float) : M unit :=
  let* copied := strcpy name_size name in
  let message :=
    {| has_type := true; type := Type_NUM;
       has_raw_message := false; raw_message := RawMessage_zero;
       has_string_message := false; string_message := StringMessage_zero;
       has_numerical_message := true;
       numerical_message :=
         {| numerical_has_name := true; numerical_name := copied;
            numerical_has_value := true; numerical_value := value |};
       has_boolean_message := false; boolean_message := BooleanMessage_zero |} in
  sendMessage (Some message).

Definition sendBooleanMessage (name : string) (value : bool) : M unit :=
  let* copied := strcpy name_size name in
  let message :=
    {| has_type := true; type := Type_BOOL;
       has_raw_message := false; raw_message := RawMessage_zero;
       has_string_message := false; string_message := StringMessage_zero;
       has_numerical_message := false;
       numerical_message := NumericalMessage_zero;
       has_boolean_message := true;
       boolean_message :=
         {| boolean_has_name := true; boolean_name := copied;
            boolean_has_value := true; boolean_value := value |} |} in
  sendMessage (Some message).

Definition sendStringMessage (name value : string) : M unit :=
  let* copiedName := strcpy name_size name in
  let* copiedValue := strcpy value_size value in
  let message :=
    {| has_type := true; type := Type_STRING;
       has_raw_message := false; raw_message := RawMessage_zero;
       has_string_message := true;
       string_message :=
         {| string_has_name := true; string_name := copiedName;
            string_has_value := true; string_value := copiedValue |};
       has_numerical_message := false;
       numerical_message := NumericalMessage_zero;
       has_boolean_message := false; boolean_message := BooleanMessage_zero |} in
  sendMessage (Some message).

(** The evented senders build their two cJSON arguments before the call;
    the embedding evaluates them left to right. *)
Definition sendEventedFloatMessage (name value : string) (event : float)
    : M unit :=
  let* v := cJSON_CreateString value in
  let* e := cJSON_CreateNumber (double_of_float event) in
  sendMessage_fields name v e.

Definition sendEventedBooleanMessage (name value : string) (event : bool)
    : M unit :=
  let* v := cJSON_CreateString value in
  let* e := cJSON_CreateBool event in
  sendMessage_fields name v e.

Definition sendEventedStringMessage (name value event : string) : M unit :=
  let* v := cJSON_CreateString value in
  let* e := cJSON_CreateString event in
  sendMessage_fields name v e.

(** [combined.bytes[i]] of the [uint64_t]/[uint8_t[8]] union; both targets
    (PIC32, LPC17xx) store the least significant byte first. *)
Definition union_byte (data : Z) (i : Z) : Z :=
  Z.land (Z.shiftr data (8 * i)) 255.

Definition hex_digit (n : Z) : ascii :=
  match String.get (Z.to_nat n) "0123456789abcdef" with
  | Some c => c
  | None => "0"%char
  end.

(** [%02x] of one byte *)
Definition hex_byte (b : Z) : string :=
  String (hex_digit (b / 16)) (String (hex_digit (b mod 16)) EmptyString).

Definition encodeData (data : Z) : string :=
  String.append "0x"
    (String.concat ""
       (List.map (fun i => hex_byte (union_byte data i)) [0; 1; 2; 3; 4; 5; 6; 7])).

Definition passthroughMessageJson (bus : CanBus) (id : Z) (data : Z)
    : M unit :=
  let* root := cJSON_CreateObject in
  let* root :=
    cJSON_AddNumberToObject root BUS_FIELD_NAME (double_of_Z (address bus)) in
  let* root := cJSON_AddNumberToObject root ID_FIELD_NAME (double_of_Z id) in
  let encodedData := encodeData data in
  let* root := cJSON_AddStringToObject root DATA_FIELD_NAME encodedData in
  sendJSON root.

Definition passthroughMessageProtobuf (bus : CanBus) (id : Z) (data : Z)
    : M unit :=
  let message :=
    {| has_type := true; type := Type_RAW;
       has_raw_message := true;
       raw_message :=
         {| has_bus := true; raw_bus := address bus;
            has_message_id := true; message_id := id;
            has_data := true; raw_data := data |};
       has_string_message := false; string_message := StringMessage_zero;
       has_numerical_message := false;
       numerical_message := NumericalMessage_zero;
       has_boolean_message := false; boolean_message := BooleanMessage_zero |} in
  sendProtobuf (Some message).

(** [passthroughMessage(bus, id, data, messages, messageCount, pipeline)];
    [messages] is the world's message table. *)
Definition passthroughMessage (bus : CanBus) (id : Z) (data : Z) : M unit :=
  let* table := gets messages in
  let message := lookupMessageDefinition bus id table in
  let* send :=
    match message with
    | None =>
        debug "Adding new message definition for message %d on bus %d" >>
        let r := registerMessageDefinition bus id table in
        modify (set_messages r.2) >>
        ret r.1
    | Some p =>
        let* tick := shouldTick_message p in
        let* m := load_message p in
        if tick || (negb (Z.eqb data (CanMessageDefinition.lastValue m))
                    && CanMessageDefinition.forceSendChanged m)
        then ret true
        else ret false
    end in
  (if send then
     let* fmt := gets (fun w => outputFormat (pipeline w)) in
     if OutputFormat_eqb fmt PROTO then passthroughMessageProtobuf bus id data
     else passthroughMessageJson bus id data
   else ret tt) >>
  match message with
  | Some p => store_message p (CanMessageDefinition.set_lastValue data)
  | None => ret tt
  end.

(** The three [translateSignal] overloads, by the handler's return type. *)
Definition translateSignal_float (signal : nat) (data : Z)
    (handler : Handler float) : M unit :=
  let send := true in
  let* (value, send) := preTranslate signal data send in
  let* (processedValue, send) := handler signal value send in
  (if send then
     let* s := load_signal signal in
     sendNumericalMessage (CanSignal.genericName s) processedValue
   else ret tt) >>
  postTranslate signal value.

Definition translateSignal_string (signal : nat) (data : Z)
    (handler : Handler (option string)) : M unit :=
  let send := true in
  let* (value, send) := preTranslate signal data send in
  let* (stringValue, send) := handler signal value send in
  match stringValue with
  | Some text =>
      if send then
        let* s := load_signal signal in
        sendStringMessage (CanSignal.genericName s) text
      else ret tt
  | None => ret tt
  end >>
  postTranslate signal value.

Definition translateSignal_bool (signal : nat) (data : Z)
    (handler : Handler bool) : M unit :=
  let send := true in
  let* (value, send) := preTranslate signal data send in
  let* (booleanValue, send) := handler signal value send in
  (if send then
     let* s := load_signal signal in
     sendBooleanMessage (CanSignal.genericName s) booleanValue
   else ret tt) >>
  postTranslate signal value.

(** [translateSignal(pipeline, signal, data, signals, signalCount)] *)
Definition translateSignal (signal : nat) (data : Z) : M unit :=
  translateSignal_float signal data passthroughHandler.

End Canread.

(** ** A reference platform

    One instance of [Externals], used to run the embedding on concrete
    frames. The theorems below hold for every instance. *)

Module Reference.

(** Modelled from the spec: [getBitField] of util/bitfield (section 4.1):
    the unsigned integer formed by [numBits] bits starting at [startBit],
    the 64-bit value read as big-endian-packed bytes, bit 0 being the most
    significant bit of byte 0. canread.cpp always asks for big-endian; the
    other order numbers the bits from the least significant end. *)
Definition getBitField (data startBit numBits : Z) (bigEndian : bool) : Z :=
  if bigEndian
  then Z.land (Z.shiftr data (64 - startBit - numBits)) (Z.ones numBits)
  else Z.land (Z.shiftr data startBit) (Z.ones numBits).

(** Modelled from the spec: [shouldTick] of util/timer (section 4.3): the
    clock is due when its interval is 0 (unthrottled) or has elapsed since
    the last fire; a due clock fires. *)
Definition shouldTick (now : Z) (clock : FrequencyClock)
    : bool * FrequencyClock :=
  if (interval clock =? 0)%Z || (interval clock <=? now - lastFire clock)%Z
  then (true, {| interval := interval clock; lastFire := now |})
  else (false, clock).

(** Modelled from the spec: [lookupSignalState] of canutil (section 4.4):
    linear search of the signal's state table, exact equality, first match
    wins. *)
Definition lookupSignalState (value : float) (signal : CanSignal.t)
    (signals : list CanSignal.t) : option CanSignalState :=
  List.find (fun st => feq (float_of_Z (state_value st)) value)
    (CanSignal.states signal).

(** Modelled from the spec: [lookupMessageDefinition] of canutil (section
    4.6): linear scan, key = bus + id, exact match. *)
Fixpoint lookupFrom (i : nat) (bus : CanBus) (id : Z)
    (table : list CanMessageDefinition.t) : option nat :=
  match table with
  | [] => None
  | m :: rest =>
      if (address (CanMessageDefinition.bus m) =? address bus)%Z
         && (CanMessageDefinition.id m =? id)%Z
      then Some i
      else lookupFrom (S i) bus id rest
  end.

Definition lookupMessageDefinition (bus : CanBus) (id : Z)
    (table : list CanMessageDefinition.t) : option nat :=
  lookupFrom 0 bus id table.

(** Modelled from the spec: [registerMessageDefinition] of canutil (section
    4.6): the table is bounded; a full table refuses the registration,
    otherwise a fresh definition for (bus, id) is added. *)
Definition registerMessageDefinition (capacity : nat) (bus : CanBus) (id : Z)
    (table : list CanMessageDefinition.t)
    : bool * list CanMessageDefinition.t :=
  if Nat.ltb (length table) capacity
  then (true,
        (table ++ [ {| CanMessageDefinition.bus := bus;
                       CanMessageDefinition.id := id;
                       CanMessageDefinition.frequencyClock :=
                         {| interval := 0; lastFire := 0 |};
                       CanMessageDefinition.forceSendChanged := false;
                       CanMessageDefinition.lastValue := 0 |} ])%list)
  else (false, table).

Definition quote (s : string) : string :=
  String "034" (String.append s (String "034" EmptyString)).

Definition decimal (n : Z) : string :=
  DecimalString.NilZero.string_of_int (Z.to_int n).

Definition pad6 (s : string) : string :=
  String.append
    (String.concat "" (List.repeat "0" (6 - String.length s)%nat)) s.

(** A stand-in for cJSON's number printer: integral values in decimal,
    other finite values with six decimals, the rest as [null]. *)
Definition render_number (d : double) : string :=
  match d with
  | S754_zero _ => "0"
  | S754_finite s m e =>
      let sign := if s then "-" else "" in
      if (0 <=? e)%Z then String.append sign (decimal (Zpos m * 2 ^ e))
      else
        let den := (2 ^ (- e))%Z in
        if (Zpos m mod den =? 0)%Z
        then String.append sign (decimal (Zpos m / den))
        else
          let micro := ((Zpos m * 1000000 * 2 + den) / (2 * den))%Z in
          String.append sign
            (String.append (decimal (micro / 1000000))
               (String.append "." (pad6 (decimal (micro mod 1000000)))))
  | _ => "null"
  end.

(** A stand-in for cJSON's unformatted printer (no string escaping). *)
Fixpoint cJSON_render (item : cJSON) : string :=
  match item with
  | cJSON_Number d => render_number d
  | cJSON_Bool b => if b then "true" else "false"
  | cJSON_String s => quote s
  | cJSON_Object fields =>
      String.append "{"
        (String.append
           (String.concat ","
              (List.map
                 (fun kv =>
                    match kv with
                    | (k, v) =>
                        String.append (quote k)
                          (String.append ":" (cJSON_render v))
                    end)
                 fields))
           "}")
  end.

(** A stand-in for nanopb's delimited encoder: one length byte, then a tag
    for the variant and the populated fields; it fails when the body does
    not fit the length byte. *)
Definition pb_body (m : VehicleMessage) : string :=
  match type m with
  | Type_RAW =>
      String.append "R"
        (String.append (decimal (raw_bus (raw_message m)))
           (String.append ","
              (String.append (decimal (message_id (raw_message m)))
                 (String.append "," (decimal (raw_data (raw_message m)))))))
  | Type_STRING =>
      String.append "S"
        (String.append (string_name (string_message m))
           (String.append "=" (string_value (string_message m))))
  | Type_NUM =>
      String.append "N"
        (String.append (numerical_name (numerical_message m))
           (String.append "="
              (render_number
                 (double_of_float (numerical_value (numerical_message m))))))
  | Type_BOOL =>
      String.append "B"
        (String.append (boolean_name (boolean_message m))
           (if boolean_value (boolean_message m) then "=1" else "=0"))
  end.

Definition pb_encode_delimited (m : VehicleMessage) : option string :=
  let body := pb_body m in
  if Nat.ltb (String.length body) 128
  then Some (String (ascii_of_nat (String.length body)) body)
  else None.

(** The reference platform with a message table of [capacity] entries. *)
Definition platform (capacity : nat) : Externals :=
  Build_Externals getBitField shouldTick lookupSignalState
    lookupMessageDefinition (registerMessageDefinition capacity)
    cJSON_render pb_encode_delimited 100 100.

End Reference.

(** ** Vocabulary of the specification *)

Section Vocabulary.
Context `{E : Externals}.

(** The value the specification gives a signal in a frame: extracted bits
    times factor plus offset (section 4.2). *)
Definition decoded (s : CanSignal.t) (frame : Z) : float :=
  let extractedBits :=
    to_uint64
      (getBitField frame (CanSignal.bitPosition s) (CanSignal.bitSize s) true) in
  fadd (fmul (float_of_Z extractedBits) (CanSignal.factor s))
    (CanSignal.offset s).

(** "Tick due": the verdict of the signal's frequency clock at time [now]. *)
Definition tickDue (now : Z) (s : CanSignal.t) : bool :=
  (shouldTick now (CanSignal.frequencyClock s)).1.

(** "Value changed": the decoded value differs from [lastValue]. *)
Definition changed (s : CanSignal.t) (frame : Z) : bool :=
  fne (decoded s frame) (CanSignal.lastValue s).

(** Eligible to send: tick due, or forced change. *)
Definition eligible (now : Z) (s : CanSignal.t) (frame : Z) : bool :=
  tickDue now s || (CanSignal.forceSendChanged s && changed s frame).

(** The gate of section 4.3: eligible, and first value or [sendSame] or
    changed. *)
Definition gateOpen (now : Z) (s : CanSignal.t) (frame : Z) : bool :=
  eligible now s frame
  && (negb (CanSignal.received s) || CanSignal.sendSame s || changed s frame).

(** The signal as the gate leaves it: the clock as [shouldTick] left it,
    [received] raised when the gate opened. *)
Definition gated (now : Z) (s : CanSignal.t) (frame : Z) : CanSignal.t :=
  let s' :=
    CanSignal.set_frequencyClock
      (shouldTick now (CanSignal.frequencyClock s)).2 s in
  if gateOpen now s frame then CanSignal.set_received true s' else s'.

(** The send decision of the passthrough path for a known message. *)
Definition messageDue (now : Z) (m : CanMessageDefinition.t) (payload : Z)
    : bool :=
  (shouldTick now (CanMessageDefinition.frequencyClock m)).1
  || (negb (Z.eqb payload (CanMessageDefinition.lastValue m))
      && CanMessageDefinition.forceSendChanged m).

(** A computation that touches the pipeline, the log and the heap only. *)
Definition io_only {A} (m : M A) : Prop :=
  forall w a w',
    m w = Ok a w' ->
    signals w' = signals w /\ messages w' = messages w
    /\ uptime w' = uptime w
    /\ outputFormat (pipeline w') = outputFormat (pipeline w).

(** The send decision of the passthrough path as the specification gives it
    (section 4.6): an unknown (bus, id) is sent when its registration
    succeeds, a known one when it is due. [None] when the lookup hands back a
    pointer outside the table. *)
Definition passthroughSend (w : World) (bus : CanBus) (id : Z) (payload : Z)
    : option bool :=
  match lookupMessageDefinition bus id (messages w) with
  | None => Some (registerMessageDefinition bus id (messages w)).1
  | Some i =>
      match messages w !! i with
      | Some m => Some (messageDue (uptime w) m payload)
      | None => None
      end
  end.

(** The raw frame as a protobuf message and as a JSON object. *)
Definition rawFrameMessage (bus : CanBus) (id : Z) (payload : Z)
    : VehicleMessage :=
  {| has_type := true; type := Type_RAW;
     has_raw_message := true;
     raw_message :=
       {| has_bus := true; raw_bus := address bus;
          has_message_id := true; message_id := id;
          has_data := true; raw_data := payload |};
     has_string_message := false; string_message := StringMessage_zero;
     has_numerical_message := false;
     numerical_message := NumericalMessage_zero;
     has_boolean_message := false; boolean_message := BooleanMessage_zero |}.

Definition rawFrameJson (bus : CanBus) (id : Z) (payload : Z) : cJSON :=
  cJSON_Object
    [ (BUS_FIELD_NAME, cJSON_Number (double_of_Z (address bus)));
      (ID_FIELD_NAME, cJSON_Number (double_of_Z id));
      (DATA_FIELD_NAME, cJSON_String (encodeData payload)) ].

(** The bytes the sink receives for a raw frame when serialization
    succeeds: the delimited protobuf encoding, or the JSON text and its
    terminator (which takes five allocations). *)
Definition rawFrameWire (w : World) (bus : CanBus) (id : Z) (payload : Z)
    : option string :=
  match outputFormat (pipeline w) with
  | PROTO => pb_encode_delimited (rawFrameMessage bus id payload)
  | JSON =>
      if granted 5 (heap w)
      then Some (String.append (cJSON_render (rawFrameJson bus id payload)) CRLF)
      else None
  end.

(** The JSON object of an evented message. *)
Definition eventedJson (name value : string) (event : cJSON) : cJSON :=
  cJSON_Object
    [ (NAME_FIELD_NAME, cJSON_String name);
      (VALUE_FIELD_NAME, cJSON_String value);
      (EVENT_FIELD_NAME, event) ].

(** Any handler: it may write to the signals, it cannot resize the array. *)
Definition keeps_array {A} (handler : Handler A) : Prop :=
  forall signal value send w r w',
    handler signal value send w = Ok r w' ->
    length (signals w') = length (signals w).

(** A handler that leaves the signal array as it found it. *)
Definition read_only {A} (handler : Handler A) : Prop :=
  forall signal value send w r w',
    handler signal value send w = Ok r w' -> signals w' = signals w.

(** What a call of [translateSignal] must leave in the signal [s'], given
    the signal [s] and the time [now] it started from: the decoded value as
    [lastValue], and, the handler having left the signals [untouched],
    [received] raised if the gate opened. *)
Definition recorded (untouched : Prop) (now : Z) (s : CanSignal.t) (frame : Z)
    (s' : CanSignal.t) : Prop :=
  CanSignal.lastValue s' = decoded s frame
  /\ (untouched -> gateOpen now s frame = true -> CanSignal.received s' = true).

End Vocabulary.

(** ** Sample data *)

Definition sample_signal : CanSignal.t :=
  {| CanSignal.genericName := "speed";
     CanSignal.bitPosition := 0; CanSignal.bitSize := 8;
     CanSignal.factor := float_of_Z 1; CanSignal.offset := float_of_Z 0;
     CanSignal.minValue := fzero; CanSignal.maxValue := fzero;
     CanSignal.frequencyClock := {| interval := 1000; lastFire := 0 |};
     CanSignal.sendSame := false; CanSignal.forceSendChanged := false;
     CanSignal.states := [ {| state_value := 100; state_name := "on" |} ];
     CanSignal.received := false; CanSignal.lastValue := fzero |}.

Definition sample_message : CanMessageDefinition.t :=
  {| CanMessageDefinition.bus := {| address := 1 |};
     CanMessageDefinition.id := 291;
     CanMessageDefinition.frequencyClock := {| interval := 1000; lastFire := 0 |};
     CanMessageDefinition.forceSendChanged := false;
     CanMessageDefinition.lastValue := 0 |}.

(** A world with one signal and one known message, at time [now]. *)
Definition sample_world (fmt : OutputFormat) (now : Z) : World :=
  {| uptime := now; signals := [sample_signal]; messages := [sample_message];
     pipeline := {| outputFormat := fmt; sent := [] |};
     log := []; heap := [] |}.

(** A signal with an infinite factor: an all-zero field decodes to a NaN. *)
Definition nan_signal : CanSignal.t :=
  {| CanSignal.genericName := "ratio";
     CanSignal.bitPosition := 0; CanSignal.bitSize := 8;
     CanSignal.factor := S754_infinity false; CanSignal.offset := float_of_Z 0;
     CanSignal.minValue := fzero; CanSignal.maxValue := fzero;
     CanSignal.frequencyClock := {| interval := 1000; lastFire := 0 |};
     CanSignal.sendSame := false; CanSignal.forceSendChanged := true;
     CanSignal.states := [];
     CanSignal.received := true; CanSignal.lastValue := S754_nan |}.

(** A name of a hundred characters. *)
Definition long_name : string :=
  String.concat "" (List.repeat "n" 100).

(** The same world with an empty message table. *)
Definition fresh_world (fmt : OutputFormat) (now : Z) : World :=
  set_messages [] (sample_world fmt now).

Definition sample_bus : CanBus := {| address := 1 |}.

(** A frame whose first byte is 0x64. *)
Definition sample_frame : Z := 0x6400000000000000.

Definition sample_raw_message : VehicleMessage :=
  {| has_type := true; type := Type_RAW;
     has_raw_message := true;
     raw_message :=
       {| has_bus := true; raw_bus := 1; has_message_id := true;
          message_id := 291; has_data := true; raw_data := 5 |};
     has_string_message := false; string_message := StringMessage_zero;
     has_numerical_message := false;
     numerical_message := NumericalMessage_zero;
     has_boolean_message := false; boolean_message := BooleanMessage_zero |}.

(** ** The delimiter buffer of sendJSON, byte by byte

    Lines 31 to 34 and 38 of canread.cpp on a character array whose cells are
    either written or not ([None]). A C string is the characters before its
    terminator, so the text behind [message] holds no NUL. *)

Definition NUL : ascii := "000"%char.

Definition cbuffer := list (option ascii).

(** [buf[i] = c]; writing past the end of the array is undefined. *)
Definition poke (i : nat) (c : ascii) (buf : cbuffer) : option cbuffer :=
  if Nat.ltb i (length buf) then Some (<[i := Some c]> buf) else None.

(** [strlen(buf)]: the index of the first NUL; reading a cell never written,
    or running off the array, is undefined. *)
Fixpoint c_strlen (buf : cbuffer) : option nat :=
  match buf with
  | Some c :: rest =>
      if Ascii.eqb c NUL then Some 0%nat else S <$> c_strlen rest
  | _ => None
  end.

(** The bytes [pipeline::sendMessage(pipeline, buf, strlen(buf))] reads. *)
Fixpoint c_chars (buf : cbuffer) : option string :=
  match buf with
  | Some c :: rest =>
      if Ascii.eqb c NUL then Some EmptyString else String c <$> c_chars rest
  | _ => None
  end.

(** [strncpy(buf + i, src, n)]: [n] characters, NUL padding once the source
    is exhausted, no terminator otherwise. *)
Fixpoint strncpy_at (i : nat) (src : string) (n : nat) (buf : cbuffer)
    : option cbuffer :=
  match n with
  | O => Some buf
  | S n' =>
      match src with
      | EmptyString => poke i NUL buf ≫= strncpy_at (S i) EmptyString n'
      | String c rest => poke i c buf ≫= strncpy_at (S i) rest n'
      end
  end.

(** The copying part of [strncat]: at most [n] characters of [src] from
    index [i] on, then a terminator. *)
Fixpoint append_at (i : nat) (src : string) (n : nat) (buf : cbuffer)
    : option cbuffer :=
  match n, src with
  | S n', String c rest => poke i c buf ≫= append_at (S i) rest n'
  | _, _ => poke i NUL buf
  end.

Definition strncat (buf : cbuffer) (src : string) (n : nat) : option cbuffer :=
  c_strlen buf ≫= fun len => append_at len src n buf.

(** [char messageWithDelimeter[strlen(message) + 3]] and what lines 32 to 34
    do to it; the result is what line 38 hands to the pipeline. *)
Definition messageWithDelimeter (message : string) : option string :=
  let buf : cbuffer := replicate (String.length message + 3) None in
  strncpy_at 0 message (String.length message) buf ≫= fun buf =>
  poke (String.length message) NUL buf ≫= fun buf =>
  strncat buf CRLF 2 ≫= c_chars.

Fixpoint no_NUL (s : string) : bool :=
  match s with
  | EmptyString => true
  | String c rest => negb (Ascii.eqb c NUL) && no_NUL rest
  end.

(** ** Reading the hex text of a raw frame back *)

Definition hex_value (c : ascii) : option Z :=
  match String.index 0 (String c EmptyString) "0123456789abcdef" with
  | Some n => Some (Z.of_nat n)
  | None => None
  end.

(** Bytes in the order they are printed: byte [i] weighs [256 ^ i]. *)
Fixpoint read_hex_bytes (n : nat) (s : string) : option Z :=
  match n with
  | O => match s with EmptyString => Some 0 | _ => None end
  | S n' =>
      match s with
      | String hi (String lo rest) =>
          h ← hex_value hi; l ← hex_value lo; more ← read_hex_bytes n' rest;
          Some (16 * h + l + 256 * more)
      | _ => None
      end
  end.

Definition decodeData (s : string) : option Z :=
  match s with
  | String "0" (String "x" digits) => read_hex_bytes 8 digits
  | _ => None
  end.

(** ** More vocabulary *)

Definition set_uptime (now : Z) (w : World) : World :=
  {| uptime := now; signals := signals w; messages := messages w;
     pipeline := pipeline w; log := log w; heap := heap w |}.

Definition is_nan (x : spec_float) : bool :=
  match x with
  | S754_nan => true
  | _ => false
  end.

(** The fields of a signal that come from the configuration. *)
Definition same_config (s s' : CanSignal.t) : Prop :=
  CanSignal.genericName s' = CanSignal.genericName s
  /\ CanSignal.bitPosition s' = CanSignal.bitPosition s
  /\ CanSignal.bitSize s' = CanSignal.bitSize s
  /\ CanSignal.factor s' = CanSignal.factor s
  /\ CanSignal.offset s' = CanSignal.offset s
  /\ CanSignal.minValue s' = CanSignal.minValue s
  /\ CanSignal.maxValue s' = CanSignal.maxValue s
  /\ CanSignal.sendSame s' = CanSignal.sendSame s
  /\ CanSignal.forceSendChanged s' = CanSignal.forceSendChanged s
  /\ CanSignal.states s' = CanSignal.states s.

(** From [w] to [w'] nothing moved but the signal at [p], which was [s]
    and kept its configuration. *)
Definition touches_only_signal (w w' : World) (p : nat) (s : CanSignal.t)
    : Prop :=
  messages w' = messages w
  /\ uptime w' = uptime w
  /\ length (signals w') = length (signals w)
  /\ (forall q, q <> p -> signals w' !! q = signals w !! q)
  /\ exists s', signals w' !! p = Some s' /\ same_config s s'.

(** A computation that leaves the pipeline as it found it. *)
Definition silent {A} (m : M A) : Prop :=
  forall w a w', m w = Ok a w' -> pipeline w' = pipeline w.

(** A computation that hands the pipeline at most one message, after the
    ones it already holds, and keeps its output format. *)
Definition sends_at_most_one {A} (m : M A) : Prop :=
  forall w a w',
    m w = Ok a w' ->
    outputFormat (pipeline w') = outputFormat (pipeline w)
    /\ (sent (pipeline w') = sent (pipeline w)
        \/ exists bytes, sent (pipeline w') = (sent (pipeline w) ++ [bytes])%list).

(** A handler that only computes: it hands the world back as it got it. *)
Definition pure_handler {A} (handler : Handler A) : Prop :=
  forall signal value send w r w',
    handler signal value send w = Ok r w' -> w' = w.

(** The JSON object of a named value, and the protobuf messages the three
    senders fill in. *)
Definition namedJson (name : string) (value : cJSON) : cJSON :=
  cJSON_Object
    [ (NAME_FIELD_NAME, cJSON_String name); (VALUE_FIELD_NAME, value) ].

Definition numericalVehicleMessage (name : string) (value : float)
    : VehicleMessage :=
  {| has_type := true; type := Type_NUM;
     has_raw_message := false; raw_message := RawMessage_zero;
     has_string_message := false; string_message := StringMessage_zero;
     has_numerical_message := true;
     numerical_message :=
       {| numerical_has_name := true; numerical_name := name;
          numerical_has_value := true; numerical_value := value |};
     has_boolean_message := false; boolean_message := BooleanMessage_zero |}.

Definition booleanVehicleMessage (name : string) (value : bool)
    : VehicleMessage :=
  {| has_type := true; type := Type_BOOL;
     has_raw_message := false; raw_message := RawMessage_zero;
     has_string_message := false; string_message := StringMessage_zero;
     has_numerical_message := false;
     numerical_message := NumericalMessage_zero;
     has_boolean_message := true;
     boolean_message :=
       {| boolean_has_name := true; boolean_name := name;
          boolean_has_value := true; boolean_value := value |} |}.

Definition stringVehicleMessage (name value : string) : VehicleMessage :=
  {| has_type := true; type := Type_STRING;
     has_raw_message := false; raw_message := RawMessage_zero;
     has_string_message := true;
     string_message :=
       {| string_has_name := true; string_name := name;
          string_has_value := true; string_value := value |};
     has_numerical_message := false;
     numerical_message := NumericalMessage_zero;
     has_boolean_message := false; boolean_message := BooleanMessage_zero |}.

(** ** platform/pic32/lights.cpp

    The functions only call into the GPIO layer; each is embedded as the
    sequence of calls it makes. The board macros are functions of the build. *)

Module Lights.

Inductive GpioValue := GPIO_VALUE_LOW | GPIO_VALUE_HIGH.
Inductive GpioDirection := GPIO_DIRECTION_INPUT | GPIO_DIRECTION_OUTPUT.

Inductive GpioCall :=
| setGpioValue (port pin : Z) (value : GpioValue)
| setGpioDirection (port pin : Z) (direction : GpioDirection).

Record RGB := { r : Z; g : Z; b : Z }.

(** [LIGHT_OTHER]: any enumerator the [switch] leaves to [default]. *)
Inductive Light := LIGHT_A | LIGHT_B | LIGHT_OTHER.

(** Which of the two board macros the build defines. *)
Record Build := { FLEETCARMA : bool; CHIPKIT : bool }.

Definition USER_LED_A_SUPPORT (build : Build) : bool :=
  FLEETCARMA build || CHIPKIT build.
Definition USER_LED_A_POLARITY (build : Build) : Z :=
  if FLEETCARMA build then 0 else 1.
Definition USER_LED_A_PIN (build : Build) : Z :=
  if FLEETCARMA build then 3 else 13.
Definition USER_LED_B_SUPPORT (build : Build) : bool := FLEETCARMA build.
Definition USER_LED_B_POLARITY : Z := 0.
Definition USER_LED_B_PIN : Z := 4.

Definition enablePin (color : RGB) (pin polarity : Z) : list GpioCall :=
  let value :=
    if (r color =? 0)%Z && (g color =? 0)%Z && (b color =? 0)%Z
    then (if negb (polarity =? 0)%Z then GPIO_VALUE_LOW else GPIO_VALUE_HIGH)
    else (if negb (polarity =? 0)%Z then GPIO_VALUE_HIGH else GPIO_VALUE_LOW) in
  [setGpioValue 0 pin value].

Definition enable (build : Build) (light : Light) (color : RGB)
    : list GpioCall :=
  match light with
  | LIGHT_A =>
      if USER_LED_A_SUPPORT build
      then enablePin color (USER_LED_A_PIN build) (USER_LED_A_POLARITY build)
      else []
  | LIGHT_B =>
      if USER_LED_B_SUPPORT build
      then enablePin color USER_LED_B_PIN USER_LED_B_POLARITY
      else []
  | LIGHT_OTHER => []
  end.

Definition initializeLights (build : Build) : list GpioCall :=
  ((if USER_LED_A_SUPPORT build
    then [setGpioDirection 0 (USER_LED_A_PIN build) GPIO_DIRECTION_OUTPUT]
    else [])
   ++ (if USER_LED_B_SUPPORT build
       then [setGpioDirection 0 USER_LED_B_PIN GPIO_DIRECTION_OUTPUT]
       else []))%list.

(** The macro comments: polarity 1 turns the LED on by driving the pin
    high, polarity 0 by driving it low. *)
Definition lit (polarity : Z) (value : GpioValue) : bool :=
  match value with
  | GPIO_VALUE_HIGH => negb (polarity =? 0)%Z
  | GPIO_VALUE_LOW => (polarity =? 0)%Z
  end.

Definition black (color : RGB) : bool :=
  (r color =? 0)%Z && (g color =? 0)%Z && (b color =? 0)%Z.

End Lights.

(** * Properties *)

(** ** Running the monad *)

Lemma bind_Ok_inv {A B} (m : M A) (k : A -> M B) w b w' :
  bind m k w = Ok b w' ->
  exists a w1, m w = Ok a w1 /\ k a w1 = Ok b w'.
Proof.
  unfold bind. destruct (m w) as [a w1|]; [|discriminate].
  intros Hk. exists a, w1. split; [reflexivity|exact Hk].
Qed.

Lemma bind_step {A B} (m : M A) (k : A -> M B) w a w1 :
  m w = Ok a w1 -> bind m k w = k a w1.
Proof. unfold bind. intros ->. reflexivity. Qed.

Lemma load_signal_eq w p s :
  signals w !! p = Some s -> load_signal p w = Ok s w.
Proof. unfold load_signal, bind, gets. intros ->. reflexivity. Qed.

Lemma load_signal_inv w p s w' :
  load_signal p w = Ok s w' -> w' = w /\ signals w !! p = Some s.
Proof.
  unfold load_signal, bind, gets. destruct (signals w !! p) eqn:E; simpl.
  - intros [= -> ->]. auto.
  - discriminate.
Qed.

Lemma store_signal_eq w p s f :
  signals w !! p = Some s ->
  store_signal p f w = Ok tt (set_signals (<[p := f s]> (signals w)) w).
Proof.
  intros Hp. unfold store_signal. rewrite (bind_step _ _ _ _ _ (load_signal_eq _ _ _ Hp)).
  reflexivity.
Qed.

Lemma load_message_eq w p m :
  messages w !! p = Some m -> load_message p w = Ok m w.
Proof. unfold load_message, bind, gets. intros ->. reflexivity. Qed.

Lemma store_message_eq w p m f :
  messages w !! p = Some m ->
  store_message p f w = Ok tt (set_messages (<[p := f m]> (messages w)) w).
Proof.
  intros Hp. unfold store_message.
  rewrite (bind_step _ _ _ _ _ (load_message_eq _ _ _ Hp)). reflexivity.
Qed.

Lemma lookup_insert_same {A} (l : list A) p x y :
  l !! p = Some x -> <[p := y]> l !! p = Some y.
Proof.
  intros Hp. apply list_lookup_insert_eq. eapply lookup_lt_Some, Hp.
Qed.

(** ** The decoder and the rate/change gate *)

Section Gate.
Context `{E : Externals}.

Lemma decodeSignal_eq w p s data :
  signals w !! p = Some s -> decodeSignal p data w = Ok (decoded s data) w.
Proof.
  intros Hp. unfold decodeSignal.
  rewrite (bind_step _ _ _ _ _ (load_signal_eq _ _ _ Hp)). reflexivity.
Qed.

Lemma shouldTick_signal_eq w p s :
  signals w !! p = Some s ->
  let r := shouldTick (uptime w) (CanSignal.frequencyClock s) in
  shouldTick_signal p w =
  Ok r.1 (set_signals (<[p := CanSignal.set_frequencyClock r.2 s]> (signals w)) w).
Proof.
  intros Hp r. unfold shouldTick_signal.
  rewrite (bind_step _ _ _ _ _ (load_signal_eq _ _ _ Hp)).
  unfold bind at 1, gets at 1.
  rewrite (bind_step _ _ _ _ _ (store_signal_eq _ _ _ _ Hp)). reflexivity.
Qed.

Lemma preTranslate_eq w p s data send :
  signals w !! p = Some s ->
  preTranslate p data send w =
  Ok (decoded s data, gateOpen (uptime w) s data && send)
     (set_signals (<[p := gated (uptime w) s data]> (signals w)) w).
Proof.
  intros Hp. unfold preTranslate.
  rewrite (bind_step _ _ _ _ _ (decodeSignal_eq _ _ _ data Hp)).
  rewrite (bind_step _ _ _ _ _ (shouldTick_signal_eq _ _ _ Hp)).
  set (r := shouldTick (uptime w) (CanSignal.frequencyClock s)).
  set (w1 := set_signals _ w).
  assert (Hp1 : signals w1 !! p = Some (CanSignal.set_frequencyClock r.2 s))
    by (apply (lookup_insert_same _ _ _ _ Hp)).
  rewrite (bind_step _ _ _ _ _ (load_signal_eq _ _ _ Hp1)).
  unfold gated, gateOpen, eligible, tickDue, changed. fold r. simpl.
  rewrite (andb_comm (CanSignal.forceSendChanged s)).
  destruct (r.1 || _) eqn:Helig; simpl; [|reflexivity].
  destruct (negb (CanSignal.received s) || _ || _) eqn:Hnew; simpl;
    [|reflexivity].
  rewrite (bind_step _ _ _ _ _ (store_signal_eq _ _ _ _ Hp1)).
  unfold w1. simpl. rewrite list_insert_insert_eq. reflexivity.
Qed.

(** C9. [decodeSignal(signal, frame)] returns the signal's extracted bit
    field times its factor plus its offset, and leaves the whole world as it
    was: the result depends on the signal's bit position, bit size, factor
    and offset and on the frame only. *)
Theorem decodeSignal_scaling_pure w p s data :
  signals w !! p = Some s ->
  decodeSignal p data w =
    Ok (fadd (fmul (float_of_Z
                      (to_uint64
                         (getBitField data (CanSignal.bitPosition s)
                            (CanSignal.bitSize s) true)))
                (CanSignal.factor s))
          (CanSignal.offset s)) w
  /\ forall w2 p2 s2,
       signals w2 !! p2 = Some s2 ->
       CanSignal.bitPosition s2 = CanSignal.bitPosition s ->
       CanSignal.bitSize s2 = CanSignal.bitSize s ->
       CanSignal.factor s2 = CanSignal.factor s ->
       CanSignal.offset s2 = CanSignal.offset s ->
       exists v, decodeSignal p data w = Ok v w
                 /\ decodeSignal p2 data w2 = Ok v w2.
Proof.
  intros Hp. split.
  - apply (decodeSignal_eq _ _ _ data Hp).
  - intros w2 p2 s2 Hp2 Hpos Hsize Hfactor Hoffset.
    exists (decoded s data). split.
    + apply (decodeSignal_eq _ _ _ data Hp).
    + rewrite (decodeSignal_eq _ _ _ data Hp2). unfold decoded.
      rewrite Hpos, Hsize, Hfactor, Hoffset. reflexivity.
Qed.

(** C1. Entered with [*send = true], [preTranslate] returns the decoded
    value and leaves [*send = true] exactly when (tick due or (forceSendChanged
    and value changed)) and (not received or sendSame or value changed); then
    it also raises [received]; otherwise it leaves [*send = false] and
    [received] as it was. *)
Theorem preTranslate_gate w p s data :
  signals w !! p = Some s ->
  exists w' s',
    preTranslate p data true w =
      Ok (decoded s data,
          (tickDue (uptime w) s
           || (CanSignal.forceSendChanged s && changed s data))
          && (negb (CanSignal.received s) || CanSignal.sendSame s
              || changed s data)) w'
    /\ signals w' !! p = Some s'
    /\ CanSignal.received s' =
         (if gateOpen (uptime w) s data then true else CanSignal.received s)
    /\ CanSignal.lastValue s' = CanSignal.lastValue s.
Proof.
  intros Hp. eexists _, _. split; [|split; [|split]].
  - rewrite (preTranslate_eq _ _ _ data true Hp), andb_true_r. reflexivity.
  - simpl. apply (lookup_insert_same _ _ _ _ Hp).
  - unfold gated. destruct (gateOpen (uptime w) s data); reflexivity.
  - unfold gated. destruct (gateOpen (uptime w) s data); reflexivity.
Qed.

(** C2 (amended). For a signal with [received = false], [preTranslate]
    entered with [*send = true] leaves [*send = true] exactly when the
    frequency clock is due or (forceSendChanged and the decoded value differs
    from lastValue); when neither holds it leaves [*send = false]. *)
Theorem preTranslate_first_value w p s data :
  signals w !! p = Some s ->
  CanSignal.received s = false ->
  exists w',
    preTranslate p data true w =
      Ok (decoded s data,
          tickDue (uptime w) s
          || (CanSignal.forceSendChanged s && changed s data)) w'.
Proof.
  intros Hp Hrecv. eexists.
  rewrite (preTranslate_eq _ _ _ data true Hp), andb_true_r.
  unfold gateOpen, eligible. rewrite Hrecv. simpl. rewrite andb_true_r.
  reflexivity.
Qed.

End Gate.

(** ** Emission leaves the tables alone *)

Lemma io_only_ret {A} (a : A) : io_only (ret a).
Proof. intros w a' w' [= _ ->]. auto. Qed.

Lemma io_only_undefined {A} : io_only (@undefined A).
Proof. intros w a w' [=]. Qed.

Lemma io_only_bind {A B} (m : M A) (k : A -> M B) :
  io_only m -> (forall a, io_only (k a)) -> io_only (bind m k).
Proof.
  intros Hm Hk w b w' Hrun.
  apply bind_Ok_inv in Hrun as (a & w1 & Hrun1 & Hrun2).
  apply Hm in Hrun1 as (Hs1 & Hm1 & Hu1 & Hf1).
  apply Hk in Hrun2 as (Hs2 & Hm2 & Hu2 & Hf2).
  repeat split; congruence.
Qed.

Lemma io_only_gets {A} (f : World -> A) : io_only (gets f).
Proof. intros w a w' [= _ ->]. auto. Qed.

Lemma io_only_deref {A} (p : option A) : io_only (deref p).
Proof. destruct p; [apply io_only_ret|apply io_only_undefined]. Qed.

Lemma io_only_debug fmt : io_only (debug fmt).
Proof. intros w a w' Hrun. inversion Hrun; subst. repeat split. Qed.

Lemma io_only_pipeline_sendMessage bytes : io_only (pipeline_sendMessage bytes).
Proof. intros w a w' Hrun. inversion Hrun; subst. repeat split. Qed.

Lemma io_only_alloc : io_only alloc.
Proof. intros w a w' Hrun. inversion Hrun; subst. repeat split. Qed.

Lemma io_only_load_signal p : io_only (load_signal p).
Proof. intros w a w' Hrun. apply load_signal_inv in Hrun as [-> _]. auto. Qed.

Lemma io_only_strcpy size src : io_only (strcpy size src).
Proof.
  unfold strcpy. destruct (Nat.ltb _ _);
    [apply io_only_ret|apply io_only_undefined].
Qed.

Create HintDb io_only.
#[local] Hint Resolve io_only_ret io_only_undefined io_only_gets io_only_deref
  io_only_debug io_only_pipeline_sendMessage io_only_alloc io_only_load_signal
  io_only_strcpy : io_only.

Ltac io_only_step :=
  match goal with
  | |- io_only (bind _ _) => apply io_only_bind; [|intros]
  | |- io_only (match ?x with _ => _ end) => destruct x
  | |- io_only (let _ := _ in _) => cbv zeta
  | |- io_only _ => solve [auto with io_only]
  end.

Ltac io_only_tac unfolds := intros; unfolds; repeat io_only_step.

Lemma io_only_cJSON_AddItemToObject object key item :
  io_only (cJSON_AddItemToObject object key item).
Proof.
  io_only_tac ltac:(unfold cJSON_AddItemToObject).
Qed.
#[local] Hint Resolve io_only_cJSON_AddItemToObject : io_only.

Section Emission.
Context `{E : Externals}.

Lemma io_only_sendJSON root : io_only (sendJSON root).
Proof.
  io_only_tac ltac:(unfold sendJSON, cJSON_PrintUnformatted, strlen).
Qed.

Lemma io_only_debugBytes buffer : io_only (debugBytes buffer).
Proof.
  induction buffer as [|c rest IH]; simpl.
  - apply io_only_ret.
  - apply io_only_bind; [apply io_only_debug|intros; exact IH].
Qed.

Lemma io_only_sendProtobuf message : io_only (sendProtobuf message).
Proof.
  pose proof io_only_debugBytes.
  io_only_tac ltac:(unfold sendProtobuf, debugNoNewline).
Qed.

Lemma io_only_sendJsonMessage name value event :
  io_only (sendJsonMessage name value event).
Proof.
  pose proof io_only_sendJSON.
  io_only_tac ltac:(unfold sendJsonMessage, cJSON_CreateObject,
                     cJSON_AddStringToObject, cJSON_CreateString).
Qed.

Lemma io_only_sendMessage message : io_only (sendMessage message).
Proof.
  pose proof io_only_sendProtobuf. pose proof io_only_sendJsonMessage.
  io_only_tac ltac:(unfold sendMessage, cJSON_CreateNumber, cJSON_CreateBool,
                     cJSON_CreateString).
Qed.

Lemma io_only_sendNumericalMessage name value :
  io_only (sendNumericalMessage name value).
Proof.
  pose proof io_only_sendMessage.
  io_only_tac ltac:(unfold sendNumericalMessage).
Qed.

Lemma io_only_sendBooleanMessage name value :
  io_only (sendBooleanMessage name value).
Proof.
  pose proof io_only_sendMessage.
  io_only_tac ltac:(unfold sendBooleanMessage).
Qed.

Lemma io_only_sendStringMessage name value :
  io_only (sendStringMessage name value).
Proof.
  pose proof io_only_sendMessage.
  io_only_tac ltac:(unfold sendStringMessage).
Qed.

Lemma io_only_passthroughMessageProtobuf bus id data :
  io_only (passthroughMessageProtobuf bus id data).
Proof. apply io_only_sendProtobuf. Qed.

Lemma io_only_passthroughMessageJson bus id data :
  io_only (passthroughMessageJson bus id data).
Proof.
  pose proof io_only_sendJSON.
  io_only_tac ltac:(unfold passthroughMessageJson, cJSON_CreateObject,
                     cJSON_AddNumberToObject, cJSON_AddStringToObject,
                     cJSON_CreateNumber, cJSON_CreateString).
Qed.

End Emission.

(** ** translateSignal *)

Section Translate.
Context `{E : Externals}.

Lemma read_only_keeps_array {A} (handler : Handler A) :
  read_only handler -> keeps_array handler.
Proof.
  intros Hro signal value send w r w' Hrun.
  rewrite (Hro _ _ _ _ _ _ Hrun). reflexivity.
Qed.

Lemma translate_shape {A} (handler : Handler A)
    (emit : A -> bool -> M unit) w p s data w' :
  keeps_array handler ->
  (forall a send, io_only (emit a send)) ->
  signals w !! p = Some s ->
  (let* (value, send) := preTranslate p data true in
   let* (out, send) := handler p value send in
   emit out send >> postTranslate p value) w = Ok tt w' ->
  exists s', signals w' !! p = Some s'
             /\ recorded (read_only handler) (uptime w) s data s'.
Proof.
  intros Hkeep Hemit Hp Hrun.
  rewrite (bind_step _ _ _ _ _ (preTranslate_eq _ _ _ data true Hp)) in Hrun.
  apply bind_Ok_inv in Hrun as ([out send] & w2 & Hh & Hrun).
  apply bind_Ok_inv in Hrun as (u & w3 & Hrun3 & Hpost).
  apply Hemit in Hrun3 as (Hsig3 & _).
  assert (Hp2 : is_Some (signals w2 !! p)).
  { apply lookup_lt_is_Some. rewrite (Hkeep _ _ _ _ _ _ Hh). simpl.
    rewrite length_insert. eapply lookup_lt_Some, Hp. }
  destruct Hp2 as [s2 Hp2].
  assert (Hp3 : signals w3 !! p = Some s2) by (rewrite Hsig3; exact Hp2).
  unfold postTranslate in Hpost.
  rewrite (store_signal_eq _ _ _ _ Hp3) in Hpost.
  injection Hpost as <-. simpl.
  eexists. split; [apply (lookup_insert_same _ _ _ _ Hp3)|].
  split; [reflexivity|].
  intros Hro Hopen. apply Hro in Hh. simpl in Hh.
  rewrite Hh, (lookup_insert_same _ _ _ _ Hp) in Hp2.
  injection Hp2 as <-. unfold gated. rewrite Hopen. reflexivity.
Qed.

Lemma builtin_read_only :
  read_only passthroughHandler /\ read_only booleanHandler
  /\ read_only ignoreHandler /\ read_only stateHandler.
Proof.
  repeat split; intros signal value send w r w' Hrun.
  - injection Hrun as _ <-. reflexivity.
  - injection Hrun as _ <-. reflexivity.
  - injection Hrun as _ <-. reflexivity.
  - unfold stateHandler in Hrun.
    apply bind_Ok_inv in Hrun as (s & w1 & Hload & Hrun).
    apply load_signal_inv in Hload as [-> _].
    unfold bind, gets in Hrun.
    destruct (lookupSignalState _ _ _); injection Hrun as _ <-; reflexivity.
Qed.

(** C3. Whatever [translateSignal] overload runs and whatever its handler
    decides about [send], the call leaves the decoded value as the signal's
    [lastValue]; and if the gate conditions held, [received] is raised (the
    handler having left the signals alone, as handlers must). With
    [ignoreHandler], which always vetoes, the call returns, sends nothing, and
    still records both. *)
Theorem translateSignal_records_value
    (hf : Handler float) (hs : Handler (option string)) (hb : Handler bool)
    w p s data :
  keeps_array hf -> keeps_array hs -> keeps_array hb ->
  signals w !! p = Some s ->
  (forall w', translateSignal_float p data hf w = Ok tt w' ->
     exists s', signals w' !! p = Some s'
                /\ recorded (read_only hf) (uptime w) s data s')
  /\ (forall w', translateSignal_string p data hs w = Ok tt w' ->
        exists s', signals w' !! p = Some s'
                   /\ recorded (read_only hs) (uptime w) s data s')
  /\ (forall w', translateSignal_bool p data hb w = Ok tt w' ->
        exists s', signals w' !! p = Some s'
                   /\ recorded (read_only hb) (uptime w) s data s')
  /\ (exists w' s',
        translateSignal_float p data ignoreHandler w = Ok tt w'
        /\ sent (pipeline w') = sent (pipeline w)
        /\ signals w' !! p = Some s' /\ recorded True (uptime w) s data s').
Proof.
  intros Hf Hs Hb Hp. repeat split.
  - intros w' Hrun.
    refine (translate_shape hf
              (fun out send =>
                 if send then
                   let* s := load_signal p in
                   sendNumericalMessage (CanSignal.genericName s) out
                 else ret tt) _ _ _ _ _ Hf _ Hp Hrun).
    pose proof io_only_sendNumericalMessage.
    io_only_tac idtac.
  - intros w' Hrun.
    refine (translate_shape hs
              (fun out send =>
                 match out with
                 | Some text =>
                     if send then
                       let* s := load_signal p in
                       sendStringMessage (CanSignal.genericName s) text
                     else ret tt
                 | None => ret tt
                 end) _ _ _ _ _ Hs _ Hp Hrun).
    pose proof io_only_sendStringMessage.
    io_only_tac idtac.
  - intros w' Hrun.
    refine (translate_shape hb
              (fun out send =>
                 if send then
                   let* s := load_signal p in
                   sendBooleanMessage (CanSignal.genericName s) out
                 else ret tt) _ _ _ _ _ Hb _ Hp Hrun).
    pose proof io_only_sendBooleanMessage.
    io_only_tac idtac.
  - unfold translateSignal_float.
    rewrite (bind_step _ _ _ _ _ (preTranslate_eq _ _ _ data true Hp)).
    unfold ignoreHandler. unfold bind at 1, ret at 1. unfold bind at 1, ret at 1.
    unfold postTranslate.
    erewrite store_signal_eq by (apply (lookup_insert_same _ _ _ _ Hp)).
    eexists _, _. split; [reflexivity|]. split; [reflexivity|]. simpl.
    rewrite list_insert_insert_eq.
    split; [apply (lookup_insert_same _ _ _ _ Hp)|].
    split; [reflexivity|]. intros _ Hopen. unfold gated. rewrite Hopen.
    reflexivity.
Qed.

Lemma preTranslate_vetoed w p s data :
  signals w !! p = Some s ->
  gateOpen (uptime w) s data = false ->
  exists w1,
    preTranslate p data true w = Ok (decoded s data, false) w1
    /\ pipeline w1 = pipeline w
    /\ signals w1 !! p = Some (gated (uptime w) s data).
Proof.
  intros Hp Hclosed. eexists. split; [|split].
  - rewrite (preTranslate_eq _ _ _ data true Hp), Hclosed. reflexivity.
  - reflexivity.
  - apply (lookup_insert_same _ _ _ _ Hp).
Qed.

Lemma postTranslate_keeps_pipeline w p s value :
  signals w !! p = Some s ->
  exists w', postTranslate p value w = Ok tt w' /\ pipeline w' = pipeline w.
Proof.
  intros Hp. unfold postTranslate. rewrite (store_signal_eq _ _ _ _ Hp).
  eexists. split; reflexivity.
Qed.

(** C10. [preTranslate] and the built-in handlers only ever clear [*send]:
    each returns, and the flag it hands back is true only if the flag it was
    given was true. Hence a frame the gate vetoed stays vetoed: with any
    built-in handler, [translateSignal] then returns without handing anything
    to the pipeline. *)
Theorem send_flag_monotone w p s data value send :
  signals w !! p = Some s ->
  (exists v send' w',
     preTranslate p data send w = Ok (v, send') w' /\ implb send' send = true)
  /\ (exists v send' w',
        passthroughHandler p value send w = Ok (v, send') w'
        /\ implb send' send = true)
  /\ (exists v send' w',
        booleanHandler p value send w = Ok (v, send') w'
        /\ implb send' send = true)
  /\ (exists v send' w',
        ignoreHandler p value send w = Ok (v, send') w'
        /\ implb send' send = true)
  /\ (exists v send' w',
        stateHandler p value send w = Ok (v, send') w'
        /\ implb send' send = true)
  /\ (gateOpen (uptime w) s data = false ->
      (exists w', translateSignal p data w = Ok tt w'
                  /\ pipeline w' = pipeline w)
      /\ (exists w', translateSignal_float p data ignoreHandler w = Ok tt w'
                     /\ pipeline w' = pipeline w)
      /\ (exists w', translateSignal_bool p data booleanHandler w = Ok tt w'
                     /\ pipeline w' = pipeline w)
      /\ (exists w', translateSignal_string p data stateHandler w = Ok tt w'
                     /\ pipeline w' = pipeline w)).
Proof.
  intros Hp. split; [|split; [|split; [|split; [|split]]]].
  - eexists _, _, _. split; [apply (preTranslate_eq _ _ _ data send Hp)|].
    destruct (gateOpen _ _ _), send; reflexivity.
  - eexists _, _, _. split; [reflexivity|]. destruct send; reflexivity.
  - eexists _, _, _. split; [reflexivity|]. destruct send; reflexivity.
  - eexists _, _, _. split; [reflexivity|]. reflexivity.
  - unfold stateHandler.
    rewrite (bind_step _ _ _ _ _ (load_signal_eq _ _ _ Hp)).
    unfold bind, gets.
    destruct (lookupSignalState value s (signals w)).
    + eexists _, _, _. split; [reflexivity|]. destruct send; reflexivity.
    + eexists _, _, _. split; [reflexivity|]. reflexivity.
  - intros Hclosed.
    destruct (preTranslate_vetoed _ _ _ data Hp Hclosed) as (w1 & Hpre & Hpipe & Hp1).
    destruct (postTranslate_keeps_pipeline _ _ _ (decoded s data) Hp1)
      as (w2 & Hpost & Hpipe2).
    assert (Hdone : pipeline w2 = pipeline w) by congruence.
    split; [|split; [|split]].
    + exists w2. split; [|exact Hdone].
      unfold translateSignal, translateSignal_float.
      rewrite (bind_step _ _ _ _ _ Hpre). exact Hpost.
    + exists w2. split; [|exact Hdone].
      unfold translateSignal_float.
      rewrite (bind_step _ _ _ _ _ Hpre). exact Hpost.
    + exists w2. split; [|exact Hdone].
      unfold translateSignal_bool.
      rewrite (bind_step _ _ _ _ _ Hpre). exact Hpost.
    + exists w2. split; [|exact Hdone].
      unfold translateSignal_string.
      rewrite (bind_step _ _ _ _ _ Hpre).
      assert (Hstate : exists out,
                 stateHandler p (decoded s data) false w1 = Ok (out, false) w1).
      { unfold stateHandler.
        rewrite (bind_step _ _ _ _ _ (load_signal_eq _ _ _ Hp1)).
        unfold bind, gets.
        destruct (lookupSignalState _ _ _); eexists; reflexivity. }
      destruct Hstate as [out Hstate].
      cbv beta iota. rewrite (bind_step _ _ _ _ _ Hstate).
      destruct out; exact Hpost.
Qed.

End Translate.

(** ** The passthrough path *)

Lemma granted_hd n h :
  granted (S n) h = true -> hd true h = true /\ granted n (tl h) = true.
Proof.
  unfold granted. destruct h as [|b h]; simpl.
  - intros _. split; [reflexivity|]. destruct n; reflexivity.
  - intros [-> Hrest]%andb_true_iff. split; [reflexivity|exact Hrest].
Qed.

Section Passthrough.
Context `{E : Externals}.

Lemma shouldTick_message_eq w p m :
  messages w !! p = Some m ->
  let r := shouldTick (uptime w) (CanMessageDefinition.frequencyClock m) in
  shouldTick_message p w =
  Ok r.1 (set_messages
            (<[p := CanMessageDefinition.set_frequencyClock r.2 m]> (messages w))
            w).
Proof.
  intros Hp r. unfold shouldTick_message.
  rewrite (bind_step _ _ _ _ _ (load_message_eq _ _ _ Hp)).
  unfold bind at 1, gets at 1.
  rewrite (bind_step _ _ _ _ _ (store_message_eq _ _ _ _ Hp)). reflexivity.
Qed.

(** The call for a known message: clock consulted, frame emitted if due,
    payload recorded. *)
Lemma passthroughMessage_known w bus id data i m :
  lookupMessageDefinition bus id (messages w) = Some i ->
  messages w !! i = Some m ->
  let r := shouldTick (uptime w) (CanMessageDefinition.frequencyClock m) in
  passthroughMessage bus id data w =
    ((if messageDue (uptime w) m data then
        let* fmt := gets (fun w => outputFormat (pipeline w)) in
        if OutputFormat_eqb fmt PROTO
        then passthroughMessageProtobuf bus id data
        else passthroughMessageJson bus id data
      else ret tt) >>
     store_message i (CanMessageDefinition.set_lastValue data))
      (set_messages
         (<[i := CanMessageDefinition.set_frequencyClock r.2 m]> (messages w)) w).
Proof.
  intros Hlook Hi r. unfold passthroughMessage.
  unfold bind at 1, gets at 1. rewrite Hlook.
  unfold bind at 1. unfold bind at 1.
  rewrite (shouldTick_message_eq _ _ _ Hi). fold r.
  set (w1 := set_messages _ w).
  assert (Hi1 : messages w1 !! i
                = Some (CanMessageDefinition.set_frequencyClock r.2 m))
    by (apply (lookup_insert_same _ _ _ _ Hi)).
  rewrite (bind_step _ _ _ _ _ (load_message_eq _ _ _ Hi1)).
  unfold messageDue. fold r. simpl.
  destruct (r.1 || _); reflexivity.
Qed.

(** The call for an unknown message: registration attempted, frame emitted
    if it succeeded; the call itself writes no [lastValue]. *)
Lemma passthroughMessage_unknown w bus id data :
  lookupMessageDefinition bus id (messages w) = None ->
  let r := registerMessageDefinition bus id (messages w) in
  passthroughMessage bus id data w =
    ((if r.1 then
        let* fmt := gets (fun w => outputFormat (pipeline w)) in
        if OutputFormat_eqb fmt PROTO
        then passthroughMessageProtobuf bus id data
        else passthroughMessageJson bus id data
      else ret tt) >> ret tt)
      (set_messages r.2
         (set_log
            (log w ++ ["Adding new message definition for message %d on bus %d"])
            w)).
Proof.
  intros Hlook r. unfold passthroughMessage.
  unfold bind at 1, gets at 1. rewrite Hlook. reflexivity.
Qed.

Lemma debugBytes_logs buffer w :
  exists l, debugBytes buffer w = Ok tt (set_log (log w ++ l) w).
Proof.
  revert w. induction buffer as [|c rest IH]; intros w; simpl.
  - exists []. rewrite app_nil_r. destruct w; reflexivity.
  - unfold bind, debugNoNewline, debug, modify.
    destruct (IH (set_log (log w ++ ["%02x "]) w)) as [l ->].
    exists ("%02x " :: l). simpl. rewrite <- app_assoc. reflexivity.
Qed.

Lemma passthroughMessageProtobuf_sends w bus id data bytes :
  pb_encode_delimited (rawFrameMessage bus id data) = Some bytes ->
  exists w',
    passthroughMessageProtobuf bus id data w = Ok tt w'
    /\ sent (pipeline w') = (sent (pipeline w) ++ [bytes])%list
    /\ messages w' = messages w.
Proof.
  intros Henc. unfold passthroughMessageProtobuf, sendProtobuf.
  fold (rawFrameMessage bus id data). rewrite Henc.
  unfold bind at 1, debugNoNewline at 1, debug at 1, modify at 1.
  unfold bind at 1.
  destruct (debugBytes_logs bytes (set_log (log w ++ ["Serialized to: "]) w))
    as [l ->].
  eexists. split; [reflexivity|]. split; reflexivity.
Qed.

Lemma passthroughMessageJson_sends w bus id data :
  granted 5 (heap w) = true ->
  exists w',
    passthroughMessageJson bus id data w = Ok tt w'
    /\ sent (pipeline w')
       = (sent (pipeline w)
          ++ [String.append (cJSON_render (rawFrameJson bus id data)) CRLF])%list
    /\ messages w' = messages w.
Proof.
  intros Hg.
  apply granted_hd in Hg as [H0 Hg]. apply granted_hd in Hg as [H1 Hg].
  apply granted_hd in Hg as [H2 Hg]. apply granted_hd in Hg as [H3 Hg].
  apply granted_hd in Hg as [H4 _].
  unfold passthroughMessageJson, cJSON_CreateObject, cJSON_AddNumberToObject,
    cJSON_AddStringToObject, cJSON_CreateNumber, cJSON_CreateString, sendJSON,
    cJSON_PrintUnformatted, strlen, bind, ret, alloc.
  simpl. rewrite H0. simpl. rewrite H1. simpl. rewrite H2. simpl.
  rewrite H3. simpl. rewrite H4. simpl.
  eexists. split; [reflexivity|]. split; reflexivity.
Qed.

Lemma io_only_emit_raw bus id data (send : bool) :
  io_only
    (if send then
       let* fmt := gets (fun w => outputFormat (pipeline w)) in
       if OutputFormat_eqb fmt PROTO
       then passthroughMessageProtobuf bus id data
       else passthroughMessageJson bus id data
     else ret tt).
Proof.
  pose proof io_only_passthroughMessageProtobuf.
  pose proof io_only_passthroughMessageJson.
  io_only_tac idtac.
Qed.

Lemma emit_raw_sends w w1 bus id data bytes :
  outputFormat (pipeline w1) = outputFormat (pipeline w) ->
  heap w1 = heap w ->
  rawFrameWire w bus id data = Some bytes ->
  exists w2,
    (let* fmt := gets (fun w => outputFormat (pipeline w)) in
     if OutputFormat_eqb fmt PROTO
     then passthroughMessageProtobuf bus id data
     else passthroughMessageJson bus id data) w1 = Ok tt w2
    /\ sent (pipeline w2) = (sent (pipeline w1) ++ [bytes])%list
    /\ messages w2 = messages w1.
Proof.
  intros Hfmt Hheap Hwire. unfold rawFrameWire in Hwire.
  unfold bind, gets. rewrite Hfmt.
  destruct (outputFormat (pipeline w)); simpl.
  - destruct (granted 5 (heap w)) eqn:Hg; [|discriminate].
    injection Hwire as <-. rewrite <- Hheap in Hg.
    apply (passthroughMessageJson_sends _ _ _ _ Hg).
  - apply (passthroughMessageProtobuf_sends _ _ _ _ _ Hwire).
Qed.

(** C4. [passthroughMessage] hands the raw frame to the sink exactly when
    (a) the (bus, id) pair has no definition and registering one succeeds, or
    (b) it has one and its clock is due or (forceSendChanged and the payload
    differs from lastValue): when the decision is no, the call returns with
    the sink untouched; when it is yes, the sink receives the serialized
    frame. *)
Theorem passthroughMessage_emits w bus id data send :
  passthroughSend w bus id data = Some send ->
  (send = false ->
   exists w', passthroughMessage bus id data w = Ok tt w'
              /\ sent (pipeline w') = sent (pipeline w))
  /\ (send = true ->
      forall bytes,
        rawFrameWire w bus id data = Some bytes ->
        exists w', passthroughMessage bus id data w = Ok tt w'
                   /\ sent (pipeline w') = (sent (pipeline w) ++ [bytes])%list).
Proof.
  unfold passthroughSend.
  destruct (lookupMessageDefinition bus id (messages w)) as [i|] eqn:Hlook.
  - destruct (messages w !! i) as [m|] eqn:Hi; [|discriminate].
    intros [= <-]. rewrite (passthroughMessage_known _ _ _ data _ _ Hlook Hi).
    set (w1 := set_messages _ w).
    assert (Hi1 : exists m1, messages w1 !! i = Some m1)
      by (eexists; apply (lookup_insert_same _ _ _ _ Hi)).
    destruct Hi1 as [m1 Hi1]. split.
    + intros ->. unfold bind at 1, ret at 1.
      rewrite (store_message_eq _ _ _ _ Hi1).
      eexists. split; reflexivity.
    + intros -> bytes Hwire.
      destruct (emit_raw_sends w w1 bus id data bytes eq_refl eq_refl Hwire)
        as (w2 & Hemit & Hsent & Hmsgs).
      rewrite (bind_step _ _ _ _ _ Hemit).
      rewrite <- Hmsgs in Hi1. rewrite (store_message_eq _ _ _ _ Hi1).
      eexists. split; [reflexivity|]. exact Hsent.
  - intros [= <-]. rewrite (passthroughMessage_unknown _ _ _ data Hlook).
    set (r := registerMessageDefinition bus id (messages w)).
    set (w1 := set_messages _ _). split.
    + intros ->. eexists. split; reflexivity.
    + intros -> bytes Hwire.
      destruct (emit_raw_sends w w1 bus id data bytes eq_refl eq_refl Hwire)
        as (w2 & Hemit & Hsent & Hmsgs).
      rewrite (bind_step _ _ _ _ _ Hemit).
      eexists. split; [reflexivity|]. exact Hsent.
Qed.

(** C5 (amended). When the lookup at the start of [passthroughMessage] finds
    the definition of (bus, id), the call leaves the incoming payload as that
    definition's [lastValue], whether or not the frame was emitted. When the
    definition is registered during the call, the call leaves the table as
    [registerMessageDefinition] left it. *)
Theorem passthroughMessage_records_payload w bus id data w' :
  passthroughMessage bus id data w = Ok tt w' ->
  match lookupMessageDefinition bus id (messages w) with
  | Some i =>
      exists m', messages w' !! i = Some m'
                 /\ CanMessageDefinition.lastValue m' = data
  | None => messages w' = (registerMessageDefinition bus id (messages w)).2
  end.
Proof.
  intros Hrun.
  destruct (lookupMessageDefinition bus id (messages w)) as [i|] eqn:Hlook.
  - destruct (messages w !! i) as [m|] eqn:Hi.
    + rewrite (passthroughMessage_known _ _ _ data _ _ Hlook Hi) in Hrun.
      apply bind_Ok_inv in Hrun as (u & w2 & Hemit & Hstore).
      apply io_only_emit_raw in Hemit as (_ & Hmsgs & _).
      assert (Hi2 : exists m2, messages w2 !! i = Some m2).
      { rewrite Hmsgs. eexists. apply (lookup_insert_same _ _ _ _ Hi). }
      destruct Hi2 as [m2 Hi2].
      rewrite (store_message_eq _ _ _ _ Hi2) in Hstore.
      injection Hstore as <-. eexists. split.
      * apply (lookup_insert_same _ _ _ _ Hi2).
      * reflexivity.
    + exfalso. unfold passthroughMessage in Hrun.
      unfold bind at 1, gets at 1 in Hrun. rewrite Hlook in Hrun.
      unfold bind at 1 in Hrun. unfold bind at 1 in Hrun.
      unfold shouldTick_message in Hrun. unfold bind at 1 in Hrun.
      unfold load_message at 1 in Hrun. unfold bind at 1, gets at 1 in Hrun.
      rewrite Hi in Hrun. discriminate.
  - rewrite (passthroughMessage_unknown _ _ _ data Hlook) in Hrun.
    apply bind_Ok_inv in Hrun as (u & w2 & Hemit & Hret).
    apply io_only_emit_raw in Hemit as (_ & Hmsgs & _).
    injection Hret as <-. exact Hmsgs.
Qed.

End Passthrough.

(** ** Emission: formats and failures *)

Section Failures.
Context `{E : Externals}.

Lemma sendMessage_fields_proto w name value event :
  outputFormat (pipeline w) = PROTO ->
  sendMessage_fields name value event w = Ok tt w.
Proof.
  intros Hfmt. unfold sendMessage_fields, bind, gets. rewrite Hfmt. reflexivity.
Qed.

Lemma sendMessage_fields_json w name value event :
  outputFormat (pipeline w) = JSON ->
  granted 3 (heap w) = true ->
  exists w',
    sendMessage_fields name (Some (cJSON_String value)) (Some event) w = Ok tt w'
    /\ sent (pipeline w')
       = (sent (pipeline w)
          ++ [String.append (cJSON_render (eventedJson name value event)) CRLF])%list.
Proof.
  intros Hfmt Hg.
  apply granted_hd in Hg as [H0 Hg]. apply granted_hd in Hg as [H1 Hg].
  apply granted_hd in Hg as [H2 _].
  unfold sendMessage_fields. unfold bind at 1, gets at 1. rewrite Hfmt.
  unfold OutputFormat_eqb, sendJsonMessage, cJSON_CreateObject,
    cJSON_AddStringToObject, cJSON_CreateString, sendJSON,
    cJSON_PrintUnformatted, strlen, bind, ret, alloc.
  simpl. rewrite H0. simpl. rewrite H1. simpl. rewrite H2. simpl.
  eexists. split; reflexivity.
Qed.

(** C6. A [VehicleMessage] of type RAW reaching [sendMessage] while the
    output format is JSON: after the diagnostic the function goes on to call
    [sendJsonMessage] with its uninitialised [name] and [value]; the message is
    not dropped, the behaviour is undefined. *)
Theorem sendMessage_unrecognized_type_not_dropped (w : World)
    (m : VehicleMessage) :
  outputFormat (pipeline w) = JSON ->
  type m = Type_RAW ->
  sendMessage (Some m) w = Undefined.
Proof.
  intros Hfmt Htype. unfold sendMessage.
  unfold bind at 1, gets at 1. rewrite Hfmt. simpl.
  unfold bind at 1, ret at 1. rewrite Htype.
  reflexivity.
Qed.

(** C7. When [cJSON_PrintUnformatted] returns [NULL], [sendJSON] passes the
    null pointer to [strlen] before it tests it: undefined behaviour, reached
    from [sendJsonMessage] as well. A failing [cJSON_CreateObject], by
    contrast, is logged and the message dropped. *)
Theorem sendJSON_print_failure_undefined
    (w : World) (h : list bool) (root : cJSON) (name : string)
    (value event : option cJSON) :
  sendJSON (Some root) (set_heap (false :: h) w) = Undefined
  /\ sendJsonMessage name value event (set_heap (true :: true :: false :: h) w)
     = Undefined
  /\ sendJsonMessage name value event (set_heap (false :: h) w)
     = Ok tt (set_log
                (log w ++ ["Unable to allocate a cJSON object - probably OOM"])
                (set_heap h w)).
Proof.
  split; [reflexivity|]. split; [|reflexivity].
  unfold sendJsonMessage, cJSON_CreateObject, cJSON_AddStringToObject,
    cJSON_CreateString, bind, ret, alloc. simpl.
  destruct value as [v|], event as [e|]; reflexivity.
Qed.

(** C8 (amended). Evented emissions are dispatched for JSON only. When the
    output format is PROTO, each evented sender returns having handed nothing
    to the sink. When it is JSON and memory is granted, the sink receives
    the JSON object with the name, the value and the event field, and its
    terminator. *)
Theorem evented_emission_json_only w name value (ef : float) (eb : bool)
    (es : string) :
  (outputFormat (pipeline w) = PROTO ->
   (exists w', sendEventedFloatMessage name value ef w = Ok tt w'
               /\ sent (pipeline w') = sent (pipeline w))
   /\ (exists w', sendEventedBooleanMessage name value eb w = Ok tt w'
                  /\ sent (pipeline w') = sent (pipeline w))
   /\ (exists w', sendEventedStringMessage name value es w = Ok tt w'
                  /\ sent (pipeline w') = sent (pipeline w)))
  /\ (outputFormat (pipeline w) = JSON ->
      granted 5 (heap w) = true ->
      (exists w',
         sendEventedFloatMessage name value ef w = Ok tt w'
         /\ sent (pipeline w')
            = (sent (pipeline w)
               ++ [String.append
                     (cJSON_render
                        (eventedJson name value
                           (cJSON_Number (double_of_float ef)))) CRLF])%list)
      /\ (exists w',
            sendEventedBooleanMessage name value eb w = Ok tt w'
            /\ sent (pipeline w')
               = (sent (pipeline w)
                  ++ [String.append
                        (cJSON_render (eventedJson name value (cJSON_Bool eb)))
                        CRLF])%list)
      /\ (exists w',
            sendEventedStringMessage name value es w = Ok tt w'
            /\ sent (pipeline w')
               = (sent (pipeline w)
                  ++ [String.append
                        (cJSON_render (eventedJson name value (cJSON_String es)))
                        CRLF])%list)).
Proof.
  split.
  - intros Hfmt.
    unfold sendEventedFloatMessage, sendEventedBooleanMessage,
      sendEventedStringMessage, cJSON_CreateString, cJSON_CreateNumber,
      cJSON_CreateBool.
    repeat split; unfold bind at 1 2 3 4, alloc, ret;
      (rewrite sendMessage_fields_proto by exact Hfmt);
      eexists; split; reflexivity.
  - intros Hfmt Hg.
    apply granted_hd in Hg as [H0 Hg]. apply granted_hd in Hg as [H1 Hg].
    unfold sendEventedFloatMessage, sendEventedBooleanMessage,
      sendEventedStringMessage, cJSON_CreateString, cJSON_CreateNumber,
      cJSON_CreateBool.
    repeat split; unfold bind at 1 2 3 4, alloc, ret; simpl;
      rewrite H0, H1;
      match goal with
      | |- context [sendMessage_fields _ _ _ ?w1] =>
          apply (sendMessage_fields_json w1 name value _ Hfmt Hg)
      end.
Qed.

End Failures.

(** ** The theorems at work on the reference platform *)

Lemma decodeSignal_scaling_pure_witness :
  signals (sample_world JSON 500) !! 0%nat = Some sample_signal
  /\ @decodeSignal (Reference.platform 2) 0 sample_frame (sample_world JSON 500)
     = Ok (float_of_Z 100) (sample_world JSON 500).
Proof.
  split; [reflexivity|].
  apply (@decodeSignal_scaling_pure (Reference.platform 2)
           (sample_world JSON 500) 0%nat sample_signal sample_frame eq_refl).
Defined.

Lemma preTranslate_gate_witness :
  signals (sample_world JSON 2000) !! 0%nat = Some sample_signal
  /\ exists w' s',
       @preTranslate (Reference.platform 2) 0 sample_frame true
         (sample_world JSON 2000) = Ok (float_of_Z 100, true) w'
       /\ signals w' !! 0%nat = Some s'
       /\ CanSignal.received s' = true.
Proof.
  split; [reflexivity|].
  destruct (@preTranslate_gate (Reference.platform 2) (sample_world JSON 2000)
              0%nat sample_signal sample_frame eq_refl)
    as (w' & s' & Hrun & Hs' & Hrecv & _).
  exists w', s'. split; [exact Hrun|]. split; [exact Hs'|exact Hrecv].
Defined.

Lemma preTranslate_first_value_witness :
  signals (sample_world JSON 2000) !! 0%nat = Some sample_signal
  /\ CanSignal.received sample_signal = false
  /\ exists w',
       @preTranslate (Reference.platform 2) 0 sample_frame true
         (sample_world JSON 2000) = Ok (float_of_Z 100, true) w'.
Proof.
  split; [reflexivity|]. split; [reflexivity|].
  apply (@preTranslate_first_value (Reference.platform 2)
           (sample_world JSON 2000) 0%nat sample_signal sample_frame
           eq_refl eq_refl).
Defined.

(** C2, as stated, fails: a signal that was never sent, whose clock is not
    due and which does not force changes, is vetoed. *)
Lemma preTranslate_unreceived_vetoed :
  ~ (forall (E : Externals) w p s data,
       signals w !! p = Some s ->
       CanSignal.received s = false ->
       exists v w', preTranslate p data true w = Ok (v, true) w').
Proof.
  intros Hclaim.
  destruct (Hclaim (Reference.platform 2) (sample_world JSON 500) 0%nat
              sample_signal sample_frame eq_refl eq_refl) as (v & w' & Hrun).
  vm_compute in Hrun. discriminate Hrun.
Qed.

Lemma send_flag_monotone_witness :
  signals (sample_world JSON 500) !! 0%nat = Some sample_signal
  /\ exists v w',
       @preTranslate (Reference.platform 2) 0 sample_frame false
         (sample_world JSON 2000) = Ok (v, false) w'.
Proof.
  split; [reflexivity|].
  destruct (@send_flag_monotone (Reference.platform 2) (sample_world JSON 2000)
              0%nat sample_signal sample_frame fzero false eq_refl)
    as ((v & send' & w' & Hrun & Himp) & _).
  exists v, w'. destruct send'; [discriminate Himp|exact Hrun].
Defined.

Lemma translateSignal_records_value_witness :
  keeps_array passthroughHandler
  /\ keeps_array (@stateHandler (Reference.platform 2))
  /\ keeps_array booleanHandler
  /\ signals (sample_world PROTO 2000) !! 0%nat = Some sample_signal
  /\ exists w' s',
       @translateSignal_float (Reference.platform 2) 0 sample_frame
         passthroughHandler (sample_world PROTO 2000) = Ok tt w'
       /\ signals w' !! 0%nat = Some s'
       /\ CanSignal.lastValue s' = float_of_Z 100
       /\ CanSignal.received s' = true.
Proof.
  destruct (@builtin_read_only (Reference.platform 2)) as (Hp & Hb & _ & Hs).
  pose proof (read_only_keeps_array _ Hp) as Kp.
  pose proof (read_only_keeps_array _ Hs) as Ks.
  pose proof (read_only_keeps_array _ Hb) as Kb.
  split; [exact Kp|]. split; [exact Ks|]. split; [exact Kb|].
  split; [reflexivity|].
  destruct (@translateSignal_records_value (Reference.platform 2)
              passthroughHandler stateHandler booleanHandler
              (sample_world PROTO 2000) 0%nat sample_signal sample_frame
              Kp Ks Kb eq_refl) as (Hfloat & _).
  assert (Hrun : exists w',
             @translateSignal_float (Reference.platform 2) 0 sample_frame
               passthroughHandler (sample_world PROTO 2000) = Ok tt w')
    by (eexists; vm_compute; reflexivity).
  destruct Hrun as [w' Hrun].
  destruct (Hfloat w' Hrun) as (s' & Hs' & Hlast & Hrecv).
  exists w', s'. split; [exact Hrun|]. split; [exact Hs'|].
  split; [exact Hlast|]. apply Hrecv; [exact Hp|reflexivity].
Defined.

Lemma passthroughMessage_emits_witness :
  @passthroughSend (Reference.platform 2) (sample_world PROTO 2000)
    sample_bus 291 5 = Some true
  /\ exists w' bytes,
       @passthroughMessage (Reference.platform 2) sample_bus 291 5
         (sample_world PROTO 2000) = Ok tt w'
       /\ sent (pipeline w') = [bytes].
Proof.
  split; [reflexivity|].
  destruct (@passthroughMessage_emits (Reference.platform 2)
              (sample_world PROTO 2000) sample_bus 291 5 true eq_refl)
    as (_ & Hyes).
  destruct (Hyes eq_refl _ eq_refl) as (w' & Hrun & Hsent).
  exists w'. eexists. split; [exact Hrun|exact Hsent].
Defined.

Lemma passthroughMessage_records_payload_witness :
  exists w' m',
    @passthroughMessage (Reference.platform 2) sample_bus 291 5
      (sample_world PROTO 500) = Ok tt w'
    /\ messages w' !! 0%nat = Some m'
    /\ CanMessageDefinition.lastValue m' = 5.
Proof.
  assert (Hrun : exists w',
             @passthroughMessage (Reference.platform 2) sample_bus 291 5
               (sample_world PROTO 500) = Ok tt w')
    by (eexists; vm_compute; reflexivity).
  destruct Hrun as [w' Hrun].
  destruct (@passthroughMessage_records_payload (Reference.platform 2)
              (sample_world PROTO 500) sample_bus 291 5 w' Hrun)
    as (m' & Hm' & Hlast).
  exists w', m'. split; [exact Hrun|]. split; [exact Hm'|exact Hlast].
Defined.

(** C5, as stated, fails: a definition registered during the call keeps the
    [lastValue] registration gave it. *)
Lemma passthroughMessage_registered_keeps_lastValue :
  ~ (forall (E : Externals) w bus id data w',
       passthroughMessage bus id data w = Ok tt w' ->
       forall i m',
         lookupMessageDefinition bus id (messages w') = Some i ->
         messages w' !! i = Some m' ->
         CanMessageDefinition.lastValue m' = data).
Proof.
  intros Hclaim.
  assert (Hrun : exists w',
             @passthroughMessage (Reference.platform 2) sample_bus 291 5
               (fresh_world PROTO 500) = Ok tt w'
             /\ messages w'
                = (Reference.registerMessageDefinition 2 sample_bus 291 []).2)
    by (eexists; split; vm_compute; reflexivity).
  destruct Hrun as (w' & Hrun & Htable).
  specialize (Hclaim (Reference.platform 2) _ _ _ _ _ Hrun 0%nat).
  rewrite Htable in Hclaim.
  specialize (Hclaim _ eq_refl eq_refl). discriminate Hclaim.
Qed.

Lemma evented_emission_json_only_witness :
  outputFormat (pipeline (sample_world JSON 500)) = JSON
  /\ granted 5 (heap (sample_world JSON 500)) = true
  /\ exists w' bytes,
       @sendEventedBooleanMessage (Reference.platform 2) "door" "ajar" true
         (sample_world JSON 500) = Ok tt w'
       /\ sent (pipeline w') = [bytes].
Proof.
  split; [reflexivity|]. split; [reflexivity|].
  destruct (@evented_emission_json_only (Reference.platform 2)
              (sample_world JSON 500) "door" "ajar" fzero true "")
    as (_ & Hjson).
  destruct (Hjson eq_refl eq_refl) as (_ & (w' & Hrun & Hsent) & _).
  exists w'. eexists. split; [exact Hrun|exact Hsent].
Defined.

Lemma sendMessage_unrecognized_type_witness :
  outputFormat (pipeline (sample_world JSON 500)) = JSON
  /\ type sample_raw_message = Type_RAW
  /\ @sendMessage (Reference.platform 2) (Some sample_raw_message)
       (sample_world JSON 500) = Undefined.
Proof.
  split; [reflexivity|]. split; [reflexivity|].
  apply (@sendMessage_unrecognized_type_not_dropped (Reference.platform 2)
           (sample_world JSON 500) sample_raw_message eq_refl eq_refl).
Defined.

(** C8, as stated, fails: under PROTO an evented message reaches no
    encoder and the sink receives nothing. *)
Lemma evented_proto_not_sent :
  ~ (forall (E : Externals) w name value event,
       outputFormat (pipeline w) = PROTO ->
       exists w' bytes,
         sendEventedFloatMessage name value event w = Ok tt w'
         /\ sent (pipeline w') = (sent (pipeline w) ++ [bytes])%list).
Proof.
  intros Hclaim.
  destruct (Hclaim (Reference.platform 2) (sample_world PROTO 500)
              "rpm" "high" (float_of_Z 3) eq_refl)
    as (w' & bytes & Hrun & Hsent).
  vm_compute in Hrun. injection Hrun as <-. discriminate Hsent.
Qed.

(** ** The specification's worked examples, run on the reference platform *)

(** First call on a never-sent signal whose clock is due: the value 100 is
    emitted as a numeric message. *)
Example first_frame_is_sent :
  exists w',
    @translateSignal (Reference.platform 2) 0 sample_frame
      (sample_world JSON 2000) = Ok tt w'
    /\ sent (pipeline w')
       = [String.concat ""
            ["{"; Reference.quote "name"; ":"; Reference.quote "speed"; ",";
             Reference.quote "value"; ":100}"; CRLF]]
    /\ (CanSignal.lastValue <$> signals w' !! 0%nat) = Some (float_of_Z 100).
Proof. eexists. repeat split; vm_compute; reflexivity. Qed.

(** A second call with the same frame before the clock is due again:
    nothing is emitted, [lastValue] stays 100. *)
Example repeated_frame_is_held :
  exists w1 w2,
    @translateSignal (Reference.platform 2) 0 sample_frame
      (sample_world JSON 2000) = Ok tt w1
    /\ @translateSignal (Reference.platform 2) 0 sample_frame w1 = Ok tt w2
    /\ sent (pipeline w2) = sent (pipeline w1)
    /\ (CanSignal.lastValue <$> signals w2 !! 0%nat) = Some (float_of_Z 100).
Proof. eexists _, _. repeat split; vm_compute; reflexivity. Qed.

(** The JSON text of a boolean signal. *)
Example door_open_json :
  exists w',
    @sendBooleanMessage (Reference.platform 2) "door_open" true
      (sample_world JSON 0) = Ok tt w'
    /\ sent (pipeline w')
       = [String.concat ""
            ["{"; Reference.quote "name"; ":"; Reference.quote "door_open"; ",";
             Reference.quote "value"; ":true}"; CRLF]].
Proof. eexists. split; vm_compute; reflexivity. Qed.

(** * Further properties of the code *)

Local Open Scope list_scope.

(** ** The delimiter buffer *)

Lemma poke_middle (pre post : cbuffer) (x : option ascii) (c : ascii) :
  poke (length pre) c (pre ++ x :: post) = Some (pre ++ Some c :: post).
Proof.
  unfold poke. rewrite length_app. simpl.
  destruct (Nat.ltb_spec (length pre) (length pre + S (length post)));
    [|lia].
  f_equal. unfold cbuffer in *.
  rewrite insert_app_r_alt by lia. rewrite Nat.sub_diag. reflexivity.
Qed.

Lemma strncpy_at_fills (text : string) (pre : cbuffer) (k : nat) :
  strncpy_at (length pre) text (String.length text)
    (pre ++ replicate (String.length text + k) None)
  = Some (pre ++ (Some <$> list_ascii_of_string text) ++ replicate k None).
Proof.
  revert pre. induction text as [|c rest IH]; intros pre; simpl.
  - reflexivity.
  - rewrite poke_middle. simpl.
    specialize (IH (pre ++ [Some c])).
    rewrite length_app, Nat.add_1_r, <- !app_assoc in IH. simpl in IH.
    exact IH.
Qed.

Lemma c_strlen_cells (text : string) (post : cbuffer) :
  no_NUL text = true ->
  c_strlen ((Some <$> list_ascii_of_string text) ++ Some NUL :: post)
  = Some (String.length text).
Proof.
  induction text as [|c rest IH]; cbn [list_ascii_of_string no_NUL].
  - reflexivity.
  - intros [Hc Hrest]%andb_true_iff. apply negb_true_iff in Hc.
    rewrite fmap_cons, <- app_comm_cons. cbn [c_strlen].
    rewrite Hc, (IH Hrest). reflexivity.
Qed.

Lemma c_chars_cells (text : string) (post : cbuffer) :
  no_NUL text = true ->
  c_chars ((Some <$> list_ascii_of_string text) ++ Some NUL :: post)
  = Some text.
Proof.
  induction text as [|c rest IH]; cbn [list_ascii_of_string no_NUL].
  - reflexivity.
  - intros [Hc Hrest]%andb_true_iff. apply negb_true_iff in Hc.
    rewrite fmap_cons, <- app_comm_cons. cbn [c_chars].
    rewrite Hc, (IH Hrest). reflexivity.
Qed.

Lemma chars_append (s t : string) :
  list_ascii_of_string (String.append s t)
  = (list_ascii_of_string s ++ list_ascii_of_string t)%list.
Proof. induction s as [|c s IH]; simpl; [reflexivity|]. rewrite IH. reflexivity. Qed.

Lemma no_NUL_append (s t : string) :
  no_NUL s = true -> no_NUL t = true -> no_NUL (String.append s t) = true.
Proof.
  induction s as [|c s IH]; simpl; [auto|].
  intros [Hc Hs]%andb_true_iff Ht. rewrite Hc. simpl. auto.
Qed.

Lemma cells_length (text : string) :
  length (Some <$> list_ascii_of_string text) = String.length text.
Proof.
  rewrite length_fmap. induction text as [|c rest IH]; simpl; congruence.
Qed.

Lemma append_at_fits (src : string) (pre junk post : cbuffer) :
  length junk = S (String.length src) ->
  append_at (length pre) src (String.length src) (pre ++ junk ++ post)
  = Some (pre ++ (Some <$> list_ascii_of_string src) ++ Some NUL :: post).
Proof.
  revert pre junk. induction src as [|c rest IH]; intros pre junk Hjunk;
    destruct junk as [|x junk]; try discriminate Hjunk;
    cbn [String.length append_at list_ascii_of_string].
  - destruct junk; [|discriminate Hjunk]. apply poke_middle.
  - rewrite <- app_comm_cons, poke_middle. cbn [mbind option_bind].
    specialize (IH (pre ++ [Some c]) junk ltac:(simpl in Hjunk; lia)).
    rewrite length_app, Nat.add_1_r, <- !app_assoc in IH.
    rewrite fmap_cons. exact IH.
Qed.

(** X1. The array of [strlen(message) + 3] bytes that [sendJSON] fills with
    [strncpy], a terminator and [strncat] is never overrun and never read
    where it was not written, and the bytes it hands to the pipeline are the
    message followed by CR LF. *)
Theorem sendJSON_buffer_framing (message : string) :
  no_NUL message = true ->
  messageWithDelimeter message = Some (String.append message CRLF).
Proof.
  intros Hclean. unfold messageWithDelimeter.
  pose proof (strncpy_at_fills message [] 3) as Hcopy.
  cbn [length app] in Hcopy. rewrite Hcopy. cbn [mbind option_bind replicate].
  set (cells := Some <$> list_ascii_of_string message).
  assert (Hlen : length cells = String.length message) by apply cells_length.
  rewrite <- Hlen at 1. rewrite poke_middle. cbn [mbind option_bind].
  unfold strncat.
  rewrite (c_strlen_cells message _ Hclean). cbn [mbind option_bind].
  rewrite <- Hlen.
  pose proof (append_at_fits CRLF cells [Some NUL; None; None] [] eq_refl)
    as Happend.
  change (String.length CRLF) with 2%nat in Happend.
  rewrite app_nil_r in Happend. rewrite Happend. cbn [mbind option_bind].
  pose proof (c_chars_cells (String.append message CRLF) []
                (no_NUL_append message CRLF Hclean eq_refl)) as Hread.
  rewrite chars_append, fmap_app, <- app_assoc in Hread. exact Hread.
Qed.

Lemma sendJSON_buffer_framing_witness :
  no_NUL "{}" = true
  /\ messageWithDelimeter "{}" = Some (String.append "{}" CRLF).
Proof.
  split; [reflexivity|]. apply (sendJSON_buffer_framing "{}" eq_refl).
Defined.

(** ** The hex text of a raw frame *)

Lemma hex_value_digit (d : Z) :
  0 <= d < 16 -> hex_value (hex_digit d) = Some d.
Proof.
  intros Hd.
  assert (Hcases : d = 0 \/ d = 1 \/ d = 2 \/ d = 3 \/ d = 4 \/ d = 5 \/ d = 6
                   \/ d = 7 \/ d = 8 \/ d = 9 \/ d = 10 \/ d = 11 \/ d = 12
                   \/ d = 13 \/ d = 14 \/ d = 15) by lia.
  repeat (destruct Hcases as [->|Hcases]; [reflexivity|]).
  subst d. reflexivity.
Qed.

Lemma read_hex_byte (n : nat) (byte : Z) (rest : string) :
  0 <= byte < 256 ->
  read_hex_bytes (S n) (String.append (hex_byte byte) rest)
  = (more ← read_hex_bytes n rest; Some (byte + 256 * more)).
Proof.
  intros Hb. unfold hex_byte. cbn [String.append read_hex_bytes].
  assert (Hhi : 0 <= byte / 16 < 16)
    by (split; [apply Z.div_pos; lia | apply Z.div_lt_upper_bound; lia]).
  assert (Hlo : 0 <= byte mod 16 < 16) by (apply Z.mod_pos_bound; lia).
  rewrite (hex_value_digit _ Hhi), (hex_value_digit _ Hlo).
  cbn [mbind option_bind].
  destruct (read_hex_bytes n rest) as [more|]; cbn [mbind option_bind];
    [|reflexivity].
  f_equal. pose proof (Z.div_mod byte 16 ltac:(lia)). lia.
Qed.

Lemma union_byte_range (data i : Z) : 0 <= union_byte data i < 256.
Proof.
  unfold union_byte. change 255 with (Z.ones 8).
  rewrite Z.land_ones by lia. apply Z.mod_pos_bound. lia.
Qed.

Lemma union_bytes_weigh (data : Z) :
  union_byte data 0 + 256 * (union_byte data 1 + 256 * (union_byte data 2
  + 256 * (union_byte data 3 + 256 * (union_byte data 4
  + 256 * (union_byte data 5 + 256 * (union_byte data 6
  + 256 * (union_byte data 7 + 256 * 0)))))))
  = to_uint64 data.
Proof.
  unfold union_byte, to_uint64. change 255 with (Z.ones 8).
  rewrite !Z.land_ones, !Z.shiftr_div_pow2 by lia.
  change (2 ^ (8 * 0)) with 1. change (2 ^ (8 * 1)) with 256.
  change (2 ^ (8 * 2)) with (256 * 256).
  change (2 ^ (8 * 3)) with (256 * 256 * 256).
  change (2 ^ (8 * 4)) with (256 * 256 * 256 * 256).
  change (2 ^ (8 * 5)) with (256 * 256 * 256 * 256 * 256).
  change (2 ^ (8 * 6)) with (256 * 256 * 256 * 256 * 256 * 256).
  change (2 ^ (8 * 7)) with (256 * 256 * 256 * 256 * 256 * 256 * 256).
  change (2 ^ 64) with (256 * (256 * (256 * (256 * (256 * (256 * (256 * 256))))))).
  change (2 ^ 8) with 256.
  rewrite Z.div_1_r, <- !Z.div_div by lia.
  rewrite !Z.rem_mul_r by lia.
  set (d1 := data / 256). set (d2 := d1 / 256). set (d3 := d2 / 256).
  set (d4 := d3 / 256). set (d5 := d4 / 256). set (d6 := d5 / 256).
  set (d7 := d6 / 256). lia.
Qed.

(** X2. The text [passthroughMessageJson] prints for a payload is 18
    characters, "0x" and sixteen hex digits (it fits [encodedData]), and
    reading the digits back, first byte printed weighing least, gives the
    64-bit payload. *)
Theorem encodeData_roundtrip (data : Z) :
  String.length (encodeData data) = 18%nat
  /\ decodeData (encodeData data) = Some (to_uint64 data).
Proof.
  split; [reflexivity|].
  unfold encodeData, decodeData.
  cbn [List.map String.concat String.append].
  change (String.append (hex_byte (union_byte data 7)) EmptyString)
    with (hex_byte (union_byte data 7)).
  replace (hex_byte (union_byte data 7))
    with (String.append (hex_byte (union_byte data 7)) EmptyString)
    by reflexivity.
  rewrite !read_hex_byte by apply union_byte_range.
  cbn [read_hex_bytes mbind option_bind].
  f_equal. apply union_bytes_weigh.
Qed.

(** ** The status lights *)

(** X3. Whatever [lights::enable] does is one write, on port 0, to the pin
    of the light it was asked for, and the level written turns that LED on
    exactly when the colour is not black, under either polarity. *)
Theorem lights_enable_lit_iff_not_black
    (build : Lights.Build) (light : Lights.Light) (color : Lights.RGB)
    (call : Lights.GpioCall) :
  In call (Lights.enable build light color) ->
  Lights.enable build light color = [call]
  /\ exists pin polarity value,
       call = Lights.setGpioValue 0 pin value
       /\ Lights.lit polarity value = negb (Lights.black color)
       /\ ((light = Lights.LIGHT_A /\ pin = Lights.USER_LED_A_PIN build
            /\ polarity = Lights.USER_LED_A_POLARITY build)
           \/ (light = Lights.LIGHT_B /\ pin = Lights.USER_LED_B_PIN
               /\ polarity = Lights.USER_LED_B_POLARITY)).
Proof.
  unfold Lights.enable, Lights.enablePin. fold (Lights.black color).
  destruct light.
  - destruct (Lights.USER_LED_A_SUPPORT build); [|intros []].
    intros [<-|[]]. split; [reflexivity|].
    eexists _, (Lights.USER_LED_A_POLARITY build), _.
    split; [reflexivity|]. split; [|left; auto].
    destruct (Lights.black color), (Lights.USER_LED_A_POLARITY build =? 0)%Z eqn:Hp;
      simpl; rewrite ?Hp; reflexivity.
  - destruct (Lights.USER_LED_B_SUPPORT build); [|intros []].
    intros [<-|[]]. split; [reflexivity|].
    eexists _, Lights.USER_LED_B_POLARITY, _.
    split; [reflexivity|]. split; [|right; auto].
    destruct (Lights.black color); reflexivity.
  - intros [].
Qed.

Lemma lights_enable_lit_iff_not_black_witness :
  In (Lights.setGpioValue 0 13 Lights.GPIO_VALUE_HIGH)
    (Lights.enable {| Lights.FLEETCARMA := false; Lights.CHIPKIT := true |}
       Lights.LIGHT_A {| Lights.r := 0; Lights.g := 255; Lights.b := 0 |})
  /\ Lights.enable {| Lights.FLEETCARMA := false; Lights.CHIPKIT := true |}
       Lights.LIGHT_A {| Lights.r := 0; Lights.g := 255; Lights.b := 0 |}
     = [Lights.setGpioValue 0 13 Lights.GPIO_VALUE_HIGH].
Proof.
  split; [left; reflexivity|].
  apply (lights_enable_lit_iff_not_black
           {| Lights.FLEETCARMA := false; Lights.CHIPKIT := true |}
           Lights.LIGHT_A {| Lights.r := 0; Lights.g := 255; Lights.b := 0 |}
           (Lights.setGpioValue 0 13 Lights.GPIO_VALUE_HIGH)).
  left. reflexivity.
Defined.

(** X4. [lights::enable] touches no pin at all exactly when the build has
    no LED for that light: a light other than A and B, light B on a build that
    is not FLEETCARMA, or light A on a build that is neither FLEETCARMA nor
    CHIPKIT. *)
Theorem lights_enable_unsupported
    (build : Lights.Build) (light : Lights.Light) (color : Lights.RGB) :
  Lights.enable build light color = []
  <-> (light = Lights.LIGHT_OTHER
       \/ (light = Lights.LIGHT_B /\ Lights.FLEETCARMA build = false)
       \/ (light = Lights.LIGHT_A /\ Lights.FLEETCARMA build = false
           /\ Lights.CHIPKIT build = false)).
Proof.
  unfold Lights.enable, Lights.enablePin, Lights.USER_LED_A_SUPPORT,
    Lights.USER_LED_B_SUPPORT.
  destruct light, (Lights.FLEETCARMA build), (Lights.CHIPKIT build); simpl;
    split; intros Hcase; try discriminate Hcase; try reflexivity;
    try (right; right; auto; fail); try (right; left; auto; fail);
    try (left; reflexivity);
    destruct Hcase as [Hcase|[[Hcase Hb]|(Hcase & Ha & Hc)]];
    discriminate.
Qed.

(** X5. Every pin [lights::enable] drives is one [initializeLights] has
    configured as an output, on the same port. *)
Theorem lights_enable_only_configured_pins
    (build : Lights.Build) (light : Lights.Light) (color : Lights.RGB)
    (port pin : Z) (value : Lights.GpioValue) :
  In (Lights.setGpioValue port pin value) (Lights.enable build light color) ->
  In (Lights.setGpioDirection port pin Lights.GPIO_DIRECTION_OUTPUT)
     (Lights.initializeLights build).
Proof.
  unfold Lights.enable, Lights.enablePin, Lights.initializeLights.
  destruct light.
  - destruct (Lights.USER_LED_A_SUPPORT build); [|intros []].
    intros [[= <- <- _]|[]]. apply in_or_app. left. left. reflexivity.
  - destruct (Lights.USER_LED_B_SUPPORT build); [|intros []].
    intros [[= <- <- _]|[]]. apply in_or_app. right. left. reflexivity.
  - intros [].
Qed.

Lemma lights_enable_only_configured_pins_witness :
  In (Lights.setGpioValue 0 4 Lights.GPIO_VALUE_LOW)
    (Lights.enable {| Lights.FLEETCARMA := true; Lights.CHIPKIT := false |}
       Lights.LIGHT_B {| Lights.r := 0; Lights.g := 0; Lights.b := 255 |})
  /\ In (Lights.setGpioDirection 0 4 Lights.GPIO_DIRECTION_OUTPUT)
       (Lights.initializeLights
          {| Lights.FLEETCARMA := true; Lights.CHIPKIT := false |}).
Proof.
  split; [left; reflexivity|].
  apply (lights_enable_only_configured_pins
           {| Lights.FLEETCARMA := true; Lights.CHIPKIT := false |}
           Lights.LIGHT_B {| Lights.r := 0; Lights.g := 0; Lights.b := 255 |}
           0 4 Lights.GPIO_VALUE_LOW).
  left. reflexivity.
Defined.

(** ** One frame, at most one message *)

Lemma silent_ret {A} (a : A) : silent (ret a).
Proof. intros w a' w' Hrun. inversion Hrun; subst. reflexivity. Qed.

Lemma silent_undefined {A} : silent (@undefined A).
Proof. intros w a w' [=]. Qed.

Lemma silent_bind {A B} (m : M A) (k : A -> M B) :
  silent m -> (forall a, silent (k a)) -> silent (bind m k).
Proof.
  intros Hm Hk w b w' Hrun.
  apply bind_Ok_inv in Hrun as (a & w1 & Hrun1 & Hrun2).
  rewrite (Hk _ _ _ _ Hrun2). apply (Hm _ _ _ Hrun1).
Qed.

Lemma silent_gets {A} (f : World -> A) : silent (gets f).
Proof. intros w a w' Hrun. inversion Hrun; subst. reflexivity. Qed.

Lemma silent_deref {A} (p : option A) : silent (deref p).
Proof. destruct p; [apply silent_ret|apply silent_undefined]. Qed.

Lemma silent_debug fmt : silent (debug fmt).
Proof. intros w a w' Hrun. inversion Hrun; subst. reflexivity. Qed.

Lemma silent_alloc : silent alloc.
Proof. intros w a w' Hrun. inversion Hrun; subst. reflexivity. Qed.

Lemma silent_strcpy size src : silent (strcpy size src).
Proof.
  unfold strcpy. destruct (Nat.ltb _ _);
    [apply silent_ret|apply silent_undefined].
Qed.

Lemma silent_modify_signals (f : World -> list CanSignal.t) :
  silent (modify (fun w => set_signals (f w) w)).
Proof. intros w a w' Hrun. inversion Hrun; subst. reflexivity. Qed.

Lemma silent_modify_messages (f : World -> list CanMessageDefinition.t) :
  silent (modify (fun w => set_messages (f w) w)).
Proof. intros w a w' Hrun. inversion Hrun; subst. reflexivity. Qed.

Create HintDb silent.
#[local] Hint Resolve silent_ret silent_undefined silent_gets silent_deref
  silent_debug silent_alloc silent_strcpy silent_modify_signals
  silent_modify_messages : silent.

Ltac silent_step :=
  match goal with
  | |- silent (bind _ _) => apply silent_bind; [|intros]
  | |- silent (match ?x with _ => _ end) => destruct x
  | |- silent (let _ := _ in _) => cbv zeta
  | |- silent _ => solve [auto with silent]
  end.

Ltac silent_tac := intros; repeat silent_step.

Lemma silent_load_signal p : silent (load_signal p).
Proof. unfold load_signal. silent_tac. Qed.

Lemma silent_store_signal p f : silent (store_signal p f).
Proof.
  pose proof silent_load_signal. unfold store_signal. silent_tac.
Qed.

Lemma silent_load_message p : silent (load_message p).
Proof. unfold load_message. silent_tac. Qed.

Lemma silent_store_message p f : silent (store_message p f).
Proof.
  pose proof silent_load_message. unfold store_message. silent_tac.
Qed.

#[local] Hint Resolve silent_load_signal silent_store_signal
  silent_load_message silent_store_message : silent.

Lemma silent_sends_at_most_one {A} (m : M A) :
  silent m -> sends_at_most_one m.
Proof.
  intros Hm w a w' Hrun. rewrite (Hm _ _ _ Hrun). split; [reflexivity|].
  left. reflexivity.
Qed.

Lemma pipeline_sendMessage_sends_one bytes :
  sends_at_most_one (pipeline_sendMessage bytes).
Proof.
  intros w a w' Hrun. inversion Hrun; subst.
  split; [reflexivity|]. right. eexists. reflexivity.
Qed.

Lemma sends_at_most_one_after {A B} (m : M A) (k : A -> M B) :
  silent m -> (forall a, sends_at_most_one (k a)) ->
  sends_at_most_one (bind m k).
Proof.
  intros Hm Hk w b w' Hrun.
  apply bind_Ok_inv in Hrun as (a & w1 & Hrun1 & Hrun2).
  rewrite <- (Hm _ _ _ Hrun1). apply (Hk _ _ _ _ Hrun2).
Qed.

Lemma sends_at_most_one_before {A B} (m : M A) (k : A -> M B) :
  sends_at_most_one m -> (forall a, silent (k a)) ->
  sends_at_most_one (bind m k).
Proof.
  intros Hm Hk w b w' Hrun.
  apply bind_Ok_inv in Hrun as (a & w1 & Hrun1 & Hrun2).
  rewrite (Hk _ _ _ _ Hrun2). apply (Hm _ _ _ Hrun1).
Qed.

Ltac one_step :=
  match goal with
  | |- sends_at_most_one (bind _ _) =>
      apply sends_at_most_one_after; [solve [silent_tac]|intros]
  | |- sends_at_most_one (bind _ _) =>
      apply sends_at_most_one_before; [|solve [silent_tac]]
  | |- sends_at_most_one (match ?x with _ => _ end) => destruct x
  | |- sends_at_most_one (let _ := _ in _) => cbv zeta
  | |- sends_at_most_one (pipeline_sendMessage _) =>
      apply pipeline_sendMessage_sends_one
  | |- sends_at_most_one _ => assumption
  | H : forall _, sends_at_most_one _ |- sends_at_most_one _ => apply H
  | H : forall _ _, sends_at_most_one _ |- sends_at_most_one _ => apply H
  | H : forall _ _ _, sends_at_most_one _ |- sends_at_most_one _ => apply H
  | |- sends_at_most_one _ =>
      apply silent_sends_at_most_one; solve [silent_tac]
  end.

Ltac one_tac := intros; repeat one_step.

Section AtMostOne.
Context `{E : Externals}.

Lemma silent_debugBytes buffer : silent (debugBytes buffer).
Proof.
  induction buffer as [|c rest IH]; simpl.
  - apply silent_ret.
  - apply silent_bind; [apply silent_debug|intros; exact IH].
Qed.

Lemma silent_shouldTick_signal p : silent (shouldTick_signal p).
Proof. unfold shouldTick_signal. silent_tac. Qed.

Lemma silent_shouldTick_message p : silent (shouldTick_message p).
Proof. unfold shouldTick_message. silent_tac. Qed.

Lemma silent_preTranslate p data send : silent (preTranslate p data send).
Proof.
  pose proof silent_shouldTick_signal.
  unfold preTranslate, decodeSignal. silent_tac.
Qed.

Lemma silent_postTranslate p value : silent (postTranslate p value).
Proof. unfold postTranslate. silent_tac. Qed.

Lemma sendJSON_sends_one root : sends_at_most_one (sendJSON root).
Proof. unfold sendJSON, cJSON_PrintUnformatted, strlen. one_tac. Qed.

Lemma sendProtobuf_sends_one message : sends_at_most_one (sendProtobuf message).
Proof.
  pose proof silent_debugBytes.
  unfold sendProtobuf, debugNoNewline. one_tac.
Qed.

Lemma sendJsonMessage_sends_one name value event :
  sends_at_most_one (sendJsonMessage name value event).
Proof.
  pose proof sendJSON_sends_one.
  unfold sendJsonMessage, cJSON_CreateObject, cJSON_AddStringToObject,
    cJSON_CreateString, cJSON_AddItemToObject.
  one_tac.
Qed.

Lemma sendMessage_sends_one message : sends_at_most_one (sendMessage message).
Proof.
  pose proof sendProtobuf_sends_one. pose proof sendJsonMessage_sends_one.
  unfold sendMessage, cJSON_CreateNumber, cJSON_CreateBool, cJSON_CreateString.
  one_tac.
Qed.

Lemma passthroughMessageJson_sends_one bus id data :
  sends_at_most_one (passthroughMessageJson bus id data).
Proof.
  pose proof sendJSON_sends_one.
  unfold passthroughMessageJson, cJSON_CreateObject, cJSON_AddNumberToObject,
    cJSON_AddStringToObject, cJSON_CreateNumber, cJSON_CreateString,
    cJSON_AddItemToObject.
  one_tac.
Qed.

Lemma sendNumericalMessage_sends_one name value :
  sends_at_most_one (sendNumericalMessage name value).
Proof.
  pose proof sendMessage_sends_one. unfold sendNumericalMessage. one_tac.
Qed.

Lemma sendBooleanMessage_sends_one name value :
  sends_at_most_one (sendBooleanMessage name value).
Proof.
  pose proof sendMessage_sends_one. unfold sendBooleanMessage. one_tac.
Qed.

Lemma sendStringMessage_sends_one name value :
  sends_at_most_one (sendStringMessage name value).
Proof.
  pose proof sendMessage_sends_one. unfold sendStringMessage. one_tac.
Qed.

(** X6. A call of [translateSignal], whichever overload, hands the pipeline
    at most one message and leaves what the pipeline already holds, and its
    output format, as they were (for a handler that does not itself write to
    the pipeline, which it is not given). *)
Theorem translateSignal_sends_at_most_one
    (hf : Handler float) (hs : Handler (option string)) (hb : Handler bool)
    (p : nat) (data : Z) :
  (forall signal value send, silent (hf signal value send)) ->
  (forall signal value send, silent (hs signal value send)) ->
  (forall signal value send, silent (hb signal value send)) ->
  sends_at_most_one (translateSignal_float p data hf)
  /\ sends_at_most_one (translateSignal_string p data hs)
  /\ sends_at_most_one (translateSignal_bool p data hb).
Proof.
  intros Hf Hs Hb.
  pose proof silent_preTranslate. pose proof silent_postTranslate.
  pose proof sendNumericalMessage_sends_one.
  pose proof sendStringMessage_sends_one.
  pose proof sendBooleanMessage_sends_one.
  split; [|split].
  - unfold translateSignal_float. cbv zeta.
    apply sends_at_most_one_after; [auto|intros [value send]].
    apply sends_at_most_one_after; [auto|intros [out send']].
    apply sends_at_most_one_before; [|auto]. one_tac.
  - unfold translateSignal_string. cbv zeta.
    apply sends_at_most_one_after; [auto|intros [value send]].
    apply sends_at_most_one_after; [auto|intros [out send']].
    apply sends_at_most_one_before; [|auto]. one_tac.
  - unfold translateSignal_bool. cbv zeta.
    apply sends_at_most_one_after; [auto|intros [value send]].
    apply sends_at_most_one_after; [auto|intros [out send']].
    apply sends_at_most_one_before; [|auto]. one_tac.
Qed.

(** X7. A call of [passthroughMessage] hands the pipeline at most one
    message and leaves what it already holds, and its output format, as they
    were. *)
Theorem passthroughMessage_sends_at_most_one (bus : CanBus) (id data : Z) :
  sends_at_most_one (passthroughMessage bus id data).
Proof.
  pose proof silent_shouldTick_message.
  pose proof sendProtobuf_sends_one.
  pose proof passthroughMessageJson_sends_one.
  unfold passthroughMessage. cbv zeta.
  apply sends_at_most_one_after; [silent_tac|intros table].
  apply sends_at_most_one_after.
  { destruct (lookupMessageDefinition bus id table); silent_tac. }
  intros send.
  apply sends_at_most_one_before.
  - destruct send; [|apply silent_sends_at_most_one, silent_ret].
    unfold passthroughMessageProtobuf. one_tac.
  - intros _. destruct (lookupMessageDefinition bus id table); silent_tac.
Qed.

End AtMostOne.

(** ** What the senders put on the wire *)

Section Wire.
Context `{E : Externals}.

Lemma strcpy_fits size src w :
  (String.length src < size)%nat -> strcpy size src w = Ok src w.
Proof.
  intros Hfit. unfold strcpy.
  destruct (Nat.ltb_spec (String.length src) size); [reflexivity|lia].
Qed.

Lemma strcpy_overflows {A} size src (k : string -> M A) w :
  (size <= String.length src)%nat -> bind (strcpy size src) k w = Undefined.
Proof.
  intros Hlong. unfold bind, strcpy.
  destruct (Nat.ltb_spec (String.length src) size); [lia|reflexivity].
Qed.

Lemma sendJsonMessage_named w name value :
  granted 3 (heap w) = true ->
  exists w',
    sendJsonMessage name (Some value) None w = Ok tt w'
    /\ sent (pipeline w')
       = sent (pipeline w)
         ++ [String.append (cJSON_render (namedJson name value)) CRLF]
    /\ log w' = log w.
Proof.
  intros Hg.
  apply granted_hd in Hg as [H0 Hg]. apply granted_hd in Hg as [H1 Hg].
  apply granted_hd in Hg as [H2 _].
  unfold sendJsonMessage, cJSON_CreateObject, cJSON_AddStringToObject,
    cJSON_CreateString, sendJSON, cJSON_PrintUnformatted, strlen, bind, ret,
    alloc.
  simpl. rewrite H0. simpl. rewrite H1. simpl. rewrite H2. simpl.
  eexists. repeat split.
Qed.

Lemma sendMessage_json w m (created : cJSON) (name : string) :
  outputFormat (pipeline w) = JSON ->
  granted 4 (heap w) = true ->
  (type m = Type_NUM
   /\ name = numerical_name (numerical_message m)
   /\ created
      = cJSON_Number (double_of_float (numerical_value (numerical_message m))))
  \/ (type m = Type_BOOL
      /\ name = boolean_name (boolean_message m)
      /\ created = cJSON_Bool (boolean_value (boolean_message m)))
  \/ (type m = Type_STRING
      /\ name = string_name (string_message m)
      /\ created = cJSON_String (string_value (string_message m))) ->
  exists w',
    sendMessage (Some m) w = Ok tt w'
    /\ sent (pipeline w')
       = sent (pipeline w)
         ++ [String.append (cJSON_render (namedJson name created)) CRLF]
    /\ log w' = log w.
Proof.
  intros Hfmt Hg Hkind.
  apply granted_hd in Hg as [H0 Hg].
  unfold sendMessage. unfold bind at 1, gets at 1. rewrite Hfmt.
  cbn [OutputFormat_eqb]. unfold deref at 1. unfold bind at 1, ret at 1.
  unfold cJSON_CreateNumber, cJSON_CreateBool, cJSON_CreateString.
  set (w1 := set_heap (tl (heap w)) w).
  assert (Hnamed : exists w',
             sendJsonMessage name (Some created) None w1 = Ok tt w'
             /\ sent (pipeline w')
                = sent (pipeline w)
                  ++ [String.append (cJSON_render (namedJson name created)) CRLF]
             /\ log w' = log w)
    by (apply (sendJsonMessage_named w1 name created Hg)).
  destruct Hnamed as (w' & Hrun & Hsent & Hlog).
  exists w'. split; [|split; [exact Hsent|exact Hlog]].
  destruct Hkind as [(Ht & -> & ->)|[(Ht & -> & ->)|(Ht & -> & ->)]];
    rewrite Ht;
    match goal with
    | |- bind ?inner _ w = _ =>
        assert (Hlocals : exists pair, inner w = Ok (Some pair) w1
                                       /\ sendJsonMessage pair.1 pair.2 None w1
                                          = Ok tt w')
          by (eexists (_, _); split;
              [unfold bind, alloc, ret; rewrite H0; reflexivity|exact Hrun])
    end;
    destruct Hlocals as ([n v] & Hlocals & Hrun');
    rewrite (bind_step _ _ _ _ _ Hlocals); exact Hrun'.
Qed.

Lemma sendMessage_proto w m :
  outputFormat (pipeline w) = PROTO ->
  exists w',
    sendMessage (Some m) w = Ok tt w'
    /\ match pb_encode_delimited m with
       | Some bytes => sent (pipeline w') = sent (pipeline w) ++ [bytes]
       | None =>
           sent (pipeline w') = sent (pipeline w)
           /\ log w' = log w ++ ["Error encoding protobuf: %s"]
       end.
Proof.
  intros Hfmt. unfold sendMessage. unfold bind at 1, gets at 1. rewrite Hfmt.
  cbn [OutputFormat_eqb]. unfold sendProtobuf.
  destruct (pb_encode_delimited m) as [bytes|].
  - unfold bind at 1, debugNoNewline at 1, debug at 1, modify at 1.
    unfold bind at 1.
    destruct (debugBytes_logs bytes (set_log (log w ++ ["Serialized to: "]) w))
      as [l ->].
    eexists. split; reflexivity.
  - eexists. split; [reflexivity|]. split; reflexivity.
Qed.

(** X8. Under JSON, with memory for the four allocations, each of the three
    senders of a named value hands the pipeline one line: the object with the
    name and then the value (number, boolean or string), followed by CR LF;
    the names and string values must fit their arrays. Nothing is logged. *)
Theorem named_value_json (w : World) (name : string) (number : float)
    (flag : bool) (text : string) :
  outputFormat (pipeline w) = JSON ->
  granted 4 (heap w) = true ->
  (String.length name < name_size)%nat ->
  (exists w',
     sendNumericalMessage name number w = Ok tt w'
     /\ sent (pipeline w')
        = sent (pipeline w)
          ++ [String.append
                (cJSON_render
                   (namedJson name (cJSON_Number (double_of_float number))))
                CRLF]
     /\ log w' = log w)
  /\ (exists w',
        sendBooleanMessage name flag w = Ok tt w'
        /\ sent (pipeline w')
           = sent (pipeline w)
             ++ [String.append
                   (cJSON_render (namedJson name (cJSON_Bool flag))) CRLF]
        /\ log w' = log w)
  /\ ((String.length text < value_size)%nat ->
      exists w',
        sendStringMessage name text w = Ok tt w'
        /\ sent (pipeline w')
           = sent (pipeline w)
             ++ [String.append
                   (cJSON_render (namedJson name (cJSON_String text))) CRLF]
        /\ log w' = log w).
Proof.
  intros Hfmt Hg Hname. split; [|split].
  - unfold sendNumericalMessage.
    rewrite (bind_step _ _ _ _ _ (strcpy_fits _ _ w Hname)).
    apply (sendMessage_json w _ _ _ Hfmt Hg). left. repeat split.
  - unfold sendBooleanMessage.
    rewrite (bind_step _ _ _ _ _ (strcpy_fits _ _ w Hname)).
    apply (sendMessage_json w _ _ _ Hfmt Hg). right. left. repeat split.
  - intros Htext. unfold sendStringMessage.
    rewrite (bind_step _ _ _ _ _ (strcpy_fits _ _ w Hname)).
    rewrite (bind_step _ _ _ _ _ (strcpy_fits _ _ w Htext)).
    apply (sendMessage_json w _ _ _ Hfmt Hg). right. right. repeat split.
Qed.

(** X9. Under PROTO each of the three senders fills in a message with its
    type, its variant and both leaves marked present, and hands the pipeline
    its delimited encoding; when the encoder fails the pipeline receives
    nothing and one diagnostic is logged. *)
Theorem named_value_proto (w : World) (name : string) (number : float)
    (flag : bool) (text : string) :
  outputFormat (pipeline w) = PROTO ->
  (String.length name < name_size)%nat ->
  (exists w',
     sendNumericalMessage name number w = Ok tt w'
     /\ match pb_encode_delimited (numericalVehicleMessage name number) with
        | Some bytes => sent (pipeline w') = sent (pipeline w) ++ [bytes]
        | None =>
            sent (pipeline w') = sent (pipeline w)
            /\ log w' = log w ++ ["Error encoding protobuf: %s"]
        end)
  /\ (exists w',
        sendBooleanMessage name flag w = Ok tt w'
        /\ match pb_encode_delimited (booleanVehicleMessage name flag) with
           | Some bytes => sent (pipeline w') = sent (pipeline w) ++ [bytes]
           | None =>
               sent (pipeline w') = sent (pipeline w)
               /\ log w' = log w ++ ["Error encoding protobuf: %s"]
           end)
  /\ ((String.length text < value_size)%nat ->
      exists w',
        sendStringMessage name text w = Ok tt w'
        /\ match pb_encode_delimited (stringVehicleMessage name text) with
           | Some bytes => sent (pipeline w') = sent (pipeline w) ++ [bytes]
           | None =>
               sent (pipeline w') = sent (pipeline w)
               /\ log w' = log w ++ ["Error encoding protobuf: %s"]
           end).
Proof.
  intros Hfmt Hname. split; [|split].
  - unfold sendNumericalMessage.
    rewrite (bind_step _ _ _ _ _ (strcpy_fits _ _ w Hname)).
    apply (sendMessage_proto w (numericalVehicleMessage name number) Hfmt).
  - unfold sendBooleanMessage.
    rewrite (bind_step _ _ _ _ _ (strcpy_fits _ _ w Hname)).
    apply (sendMessage_proto w (booleanVehicleMessage name flag) Hfmt).
  - intros Htext. unfold sendStringMessage.
    rewrite (bind_step _ _ _ _ _ (strcpy_fits _ _ w Hname)).
    rewrite (bind_step _ _ _ _ _ (strcpy_fits _ _ w Htext)).
    apply (sendMessage_proto w (stringVehicleMessage name text) Hfmt).
Qed.

(** X10. The senders copy the name (and the string value) with [strcpy]
    and do not check that it fits: a name that fills or exceeds its array, or
    a string value that does, is undefined behaviour in either format. *)
Theorem long_name_overflows (w : World) (name : string) (number : float)
    (flag : bool) (text : string) :
  ((name_size <= String.length name)%nat ->
   sendNumericalMessage name number w = Undefined
   /\ sendBooleanMessage name flag w = Undefined
   /\ sendStringMessage name text w = Undefined)
  /\ ((value_size <= String.length text)%nat ->
      sendStringMessage name text w = Undefined).
Proof.
  split.
  - intros Hlong. repeat split; apply strcpy_overflows; exact Hlong.
  - intros Hlong. unfold sendStringMessage.
    destruct (Nat.ltb_spec (String.length name) name_size) as [Hfit|Hname].
    + rewrite (bind_step _ _ _ _ _ (strcpy_fits _ _ w Hfit)).
      apply strcpy_overflows. exact Hlong.
    + apply strcpy_overflows. exact Hname.
Qed.

End Wire.

(** ** More on the gate *)

Lemma SFeqb_refl (x : spec_float) : is_nan x = false -> SFeqb x x = true.
Proof.
  destruct x as [s| s| |s m e]; try discriminate; intros _;
    unfold SFeqb, SFcompare.
  - reflexivity.
  - destruct s; reflexivity.
  - destruct s; rewrite Z.compare_refl;
      change (Pos.compare_cont Eq m m) with (m ?= m)%positive;
      rewrite Pos.compare_refl; reflexivity.
Qed.

Lemma gated_config `{E : Externals} now s data :
  same_config s (gated now s data).
Proof. unfold gated. destruct (gateOpen now s data); repeat split. Qed.

Lemma gated_received `{E : Externals} now s data :
  CanSignal.received (gated now s data)
  = gateOpen now s data || CanSignal.received s.
Proof. unfold gated. destruct (gateOpen now s data); reflexivity. Qed.

Lemma decoded_config `{E : Externals} s s' data :
  same_config s s' -> decoded s' data = decoded s data.
Proof.
  intros (_ & Hpos & Hsize & Hfactor & Hoffset & _). unfold decoded.
  rewrite Hpos, Hsize, Hfactor, Hoffset. reflexivity.
Qed.

Section GateMore.
Context `{E : Externals}.

(** X11. [preTranslate] raises [received] whenever the gate conditions hold,
    also when it was entered with [*send] already false (its inner test reads
    the pointer), and it never clears it. *)
Theorem preTranslate_received_sticky w p s data send :
  signals w !! p = Some s ->
  exists v b w' s',
    preTranslate p data send w = Ok (v, b) w'
    /\ signals w' !! p = Some s'
    /\ CanSignal.received s'
       = gateOpen (uptime w) s data || CanSignal.received s.
Proof.
  intros Hp. eexists _, _, _, _. split; [|split].
  - apply (preTranslate_eq _ _ _ data send Hp).
  - apply (lookup_insert_same _ _ _ _ Hp).
  - apply gated_received.
Qed.

(** X12. A decoded value that is a NaN differs from every [lastValue], its
    own included: the signal then passes the gate whenever its clock is due
    or it forces changes, whatever [received] and [sendSame] say. *)
Theorem nan_always_changed w p s data :
  signals w !! p = Some s ->
  is_nan (decoded s data) = true ->
  exists w',
    preTranslate p data true w
    = Ok (decoded s data,
          tickDue (uptime w) s || CanSignal.forceSendChanged s) w'.
Proof.
  intros Hp Hnan. eexists.
  rewrite (preTranslate_eq _ _ _ data true Hp), andb_true_r.
  unfold gateOpen, eligible, changed.
  destruct (decoded s data); try discriminate Hnan.
  unfold fne, SFeqb. cbn [SFcompare negb].
  rewrite andb_true_r, orb_true_r, andb_true_r. reflexivity.
Qed.

End GateMore.

(** ** More on translateSignal *)

Section TranslateMore.
Context `{E : Externals}.

Lemma translate_shape_pure {A} (handler : Handler A)
    (emit : A -> bool -> M unit) w p s data w' :
  pure_handler handler ->
  (forall a send, io_only (emit a send)) ->
  signals w !! p = Some s ->
  (let* (value, send) := preTranslate p data true in
   let* (out, send) := handler p value send in
   emit out send >> postTranslate p value) w = Ok tt w' ->
  signals w'
  = <[p := CanSignal.set_lastValue (decoded s data) (gated (uptime w) s data)]>
      (signals w)
  /\ messages w' = messages w /\ uptime w' = uptime w.
Proof.
  intros Hpure Hemit Hp Hrun.
  rewrite (bind_step _ _ _ _ _ (preTranslate_eq _ _ _ data true Hp)) in Hrun.
  apply bind_Ok_inv in Hrun as ([out send] & w2 & Hh & Hrun).
  apply Hpure in Hh. subst w2.
  apply bind_Ok_inv in Hrun as (u & w3 & Hrun3 & Hpost).
  apply Hemit in Hrun3 as (Hsig3 & Hmsg3 & Hup3 & _). simpl in Hsig3, Hmsg3, Hup3.
  assert (Hp3 : signals w3 !! p = Some (gated (uptime w) s data))
    by (rewrite Hsig3; apply (lookup_insert_same _ _ _ _ Hp)).
  unfold postTranslate in Hpost.
  rewrite (store_signal_eq _ _ _ _ Hp3) in Hpost.
  injection Hpost as <-. simpl.
  rewrite Hsig3, list_insert_insert_eq. auto.
Qed.

Lemma touched_one (w w' : World) p s x :
  signals w !! p = Some s ->
  same_config s x ->
  signals w' = <[p := x]> (signals w)
  /\ messages w' = messages w /\ uptime w' = uptime w ->
  touches_only_signal w w' p s.
Proof.
  intros Hp Hconf (Hsig & Hmsg & Hup). repeat split; try assumption.
  - rewrite Hsig. apply length_insert.
  - intros q Hq. rewrite Hsig. apply list_lookup_insert_ne. congruence.
  - exists x. split; [|exact Hconf].
    rewrite Hsig. apply (lookup_insert_same _ _ _ _ Hp).
Qed.

Lemma recorded_config s now (data : Z) v :
  same_config s (CanSignal.set_lastValue v (gated now s data)).
Proof. unfold gated. destruct (gateOpen now s data); repeat split. Qed.

Lemma builtin_pure :
  pure_handler passthroughHandler /\ pure_handler booleanHandler
  /\ pure_handler ignoreHandler /\ pure_handler stateHandler.
Proof.
  repeat split; intros signal value send w r w' Hrun.
  - injection Hrun as _ <-. reflexivity.
  - injection Hrun as _ <-. reflexivity.
  - injection Hrun as _ <-. reflexivity.
  - unfold stateHandler in Hrun.
    apply bind_Ok_inv in Hrun as (s & w1 & Hload & Hrun).
    apply load_signal_inv in Hload as [-> _].
    unfold bind, gets in Hrun.
    destruct (lookupSignalState _ _ _); injection Hrun as _ <-; reflexivity.
Qed.

(** X13. A call of [translateSignal], whichever overload, with a handler
    that only computes, changes one thing in the world besides the pipeline,
    the log and the heap: the signal it was given, and of that signal only the
    clock, [received] and [lastValue]. The other signals, the signal's
    configuration, the message table and the time are as before. *)
Theorem translateSignal_touches_one_signal
    (hf : Handler float) (hs : Handler (option string)) (hb : Handler bool)
    w p s data :
  pure_handler hf -> pure_handler hs -> pure_handler hb ->
  signals w !! p = Some s ->
  (forall w', translateSignal_float p data hf w = Ok tt w' ->
     touches_only_signal w w' p s)
  /\ (forall w', translateSignal_string p data hs w = Ok tt w' ->
        touches_only_signal w w' p s)
  /\ (forall w', translateSignal_bool p data hb w = Ok tt w' ->
        touches_only_signal w w' p s).
Proof.
  intros Hf Hs Hb Hp. split; [|split]; intros w' Hrun;
    apply (touched_one w w' p s _ Hp
             (recorded_config s (uptime w) data (decoded s data))).
  - refine (translate_shape_pure hf
              (fun out send =>
                 if send then
                   let* s := load_signal p in
                   sendNumericalMessage (CanSignal.genericName s) out
                 else ret tt) _ _ _ _ _ Hf _ Hp Hrun).
    pose proof io_only_sendNumericalMessage. io_only_tac idtac.
  - refine (translate_shape_pure hs
              (fun out send =>
                 match out with
                 | Some text =>
                     if send then
                       let* s := load_signal p in
                       sendStringMessage (CanSignal.genericName s) text
                     else ret tt
                 | None => ret tt
                 end) _ _ _ _ _ Hs _ Hp Hrun).
    pose proof io_only_sendStringMessage. io_only_tac idtac.
  - refine (translate_shape_pure hb
              (fun out send =>
                 if send then
                   let* s := load_signal p in
                   sendBooleanMessage (CanSignal.genericName s) out
                 else ret tt) _ _ _ _ _ Hb _ Hp Hrun).
    pose proof io_only_sendBooleanMessage. io_only_tac idtac.
Qed.

(** X14. Once a value has been through the gate, the same frame again is
    not sent when the signal does not ask for repeats ([sendSame] false),
    however much time has passed and whatever the clock says: the second call
    returns with the pipeline as the first one left it. (The decoded value
    must not be a NaN.) *)
Theorem repeated_value_not_resent w p s data w1 (later : Z) :
  signals w !! p = Some s ->
  CanSignal.sendSame s = false ->
  is_nan (decoded s data) = false ->
  gateOpen (uptime w) s data = true \/ CanSignal.received s = true ->
  translateSignal p data w = Ok tt w1 ->
  exists w2,
    translateSignal p data (set_uptime later w1) = Ok tt w2
    /\ pipeline w2 = pipeline w1.
Proof.
  intros Hp Hsame Hnan Hseen Hrun.
  set (s1 := CanSignal.set_lastValue (decoded s data) (gated (uptime w) s data)).
  assert (Hshape : signals w1 = <[p := s1]> (signals w)).
  { destruct builtin_pure as (Hpure & _).
    refine (proj1 (translate_shape_pure passthroughHandler
              (fun out send =>
                 if send then
                   let* s := load_signal p in
                   sendNumericalMessage (CanSignal.genericName s) out
                 else ret tt) _ _ _ _ _ Hpure _ Hp Hrun)).
    pose proof io_only_sendNumericalMessage. io_only_tac idtac. }
  set (w1' := set_uptime later w1).
  assert (Hp1 : signals w1' !! p = Some s1).
  { unfold w1'. simpl. rewrite Hshape. apply (lookup_insert_same _ _ _ _ Hp). }
  assert (Hconf : same_config s s1) by apply recorded_config.
  assert (Hclosed : gateOpen (uptime w1') s1 data = false).
  { unfold gateOpen, changed.
    rewrite (decoded_config _ _ data Hconf).
    replace (CanSignal.lastValue s1) with (decoded s data)
      by (unfold s1, gated; destruct (gateOpen (uptime w) s data); reflexivity).
    unfold fne. rewrite (SFeqb_refl _ Hnan).
    replace (CanSignal.sendSame s1) with false
      by (unfold s1, gated; destruct (gateOpen (uptime w) s data);
          simpl; congruence).
    replace (CanSignal.received s1) with true.
    - simpl. apply andb_false_r.
    - unfold s1. simpl. rewrite gated_received.
      destruct Hseen as [-> | ->]; [reflexivity|symmetry; apply orb_true_r]. }
  destruct (preTranslate_vetoed _ _ _ data Hp1 Hclosed)
    as (w2 & Hpre & Hpipe & Hp2).
  destruct (postTranslate_keeps_pipeline _ _ _ (decoded s1 data) Hp2)
    as (w3 & Hpost & Hpipe3).
  exists w3. split.
  - unfold translateSignal, translateSignal_float.
    rewrite (bind_step _ _ _ _ _ Hpre). exact Hpost.
  - rewrite Hpipe3, Hpipe. reflexivity.
Qed.

(** X15. A value that matches none of the signal's states: [translateSignal]
    with [stateHandler] returns having sent and logged nothing, the decoded
    value is recorded as [lastValue], and the signal counts as received if the
    gate conditions held, although nothing was emitted. *)
Theorem unmatched_state_not_sent w p s data :
  signals w !! p = Some s ->
  lookupSignalState (decoded s data) (gated (uptime w) s data)
    (<[p := gated (uptime w) s data]> (signals w)) = None ->
  exists w' s',
    translateSignal_string p data stateHandler w = Ok tt w'
    /\ pipeline w' = pipeline w /\ log w' = log w
    /\ signals w' !! p = Some s'
    /\ CanSignal.lastValue s' = decoded s data
    /\ CanSignal.received s'
       = gateOpen (uptime w) s data || CanSignal.received s.
Proof.
  intros Hp Hnone. unfold translateSignal_string.
  rewrite (bind_step _ _ _ _ _ (preTranslate_eq _ _ _ data true Hp)).
  set (w1 := set_signals _ w).
  assert (Hp1 : signals w1 !! p = Some (gated (uptime w) s data))
    by apply (lookup_insert_same _ _ _ _ Hp).
  assert (Hstate : stateHandler p (decoded s data)
                     (gateOpen (uptime w) s data && true) w1
                   = Ok (None, false) w1).
  { unfold stateHandler.
    rewrite (bind_step _ _ _ _ _ (load_signal_eq _ _ _ Hp1)).
    unfold bind, gets. unfold w1 at 1. simpl. rewrite Hnone. reflexivity. }
  cbv beta iota. rewrite (bind_step _ _ _ _ _ Hstate). cbv beta iota.
  unfold bind at 1, ret at 1. unfold postTranslate.
  rewrite (store_signal_eq _ _ _ _ Hp1).
  eexists _, _. split; [reflexivity|]. split; [reflexivity|].
  split; [reflexivity|]. split; [apply (lookup_insert_same _ _ _ _ Hp1)|].
  split; [reflexivity|]. simpl. apply gated_received.
Qed.

(** X16. When the gate opens, [translateSignal] with the default handler
    sends the decoded value under the signal's generic name: as a JSON line
    under JSON (memory granted), as the delimited encoding of the numerical
    message under PROTO (encoder succeeding). The name must fit its array. *)
Theorem translateSignal_sends_decoded w p s data :
  signals w !! p = Some s ->
  gateOpen (uptime w) s data = true ->
  (String.length (CanSignal.genericName s) < name_size)%nat ->
  (outputFormat (pipeline w) = JSON ->
   granted 4 (heap w) = true ->
   exists w',
     translateSignal p data w = Ok tt w'
     /\ sent (pipeline w')
        = sent (pipeline w)
          ++ [String.append
                (cJSON_render
                   (namedJson (CanSignal.genericName s)
                      (cJSON_Number (double_of_float (decoded s data)))))
                CRLF])
  /\ (outputFormat (pipeline w) = PROTO ->
      forall bytes,
        pb_encode_delimited
          (numericalVehicleMessage (CanSignal.genericName s) (decoded s data))
        = Some bytes ->
        exists w',
          translateSignal p data w = Ok tt w'
          /\ sent (pipeline w') = sent (pipeline w) ++ [bytes]).
Proof.
  intros Hp Hopen Hname.
  assert (Hpre : exists w1,
             preTranslate p data true w = Ok (decoded s data, true) w1
             /\ signals w1 !! p = Some (gated (uptime w) s data)
             /\ pipeline w1 = pipeline w /\ heap w1 = heap w).
  { eexists. split; [|split; [|split]].
    - rewrite (preTranslate_eq _ _ _ data true Hp), Hopen. reflexivity.
    - apply (lookup_insert_same _ _ _ _ Hp).
    - reflexivity.
    - reflexivity. }
  destruct Hpre as (w1 & Hpre & Hp1 & Hpipe1 & Hheap1).
  assert (Hgen : CanSignal.genericName (gated (uptime w) s data)
                 = CanSignal.genericName s)
    by (apply (gated_config (uptime w) s data)).
  assert (Hfinish : forall w2 bytes,
             sendNumericalMessage (CanSignal.genericName s) (decoded s data) w1
             = Ok tt w2 ->
             sent (pipeline w2) = sent (pipeline w1) ++ [bytes] ->
             exists w',
               translateSignal p data w = Ok tt w'
               /\ sent (pipeline w') = sent (pipeline w) ++ [bytes]).
  { intros w2 bytes Hsend Hsent.
    assert (Hp2 : signals w2 !! p = Some (gated (uptime w) s data)).
    { apply io_only_sendNumericalMessage in Hsend as Hframe.
      destruct Hframe as (-> & _). exact Hp1. }
    destruct (postTranslate_keeps_pipeline _ _ _ (decoded s data) Hp2)
      as (w3 & Hpost & Hpipe3).
    exists w3. split.
    - unfold translateSignal, translateSignal_float.
      rewrite (bind_step _ _ _ _ _ Hpre). cbv beta iota.
      unfold passthroughHandler. unfold bind at 1, ret at 1. cbv beta iota.
      unfold bind at 1.
      rewrite (bind_step _ _ _ _ _ (load_signal_eq _ _ _ Hp1)), Hgen, Hsend.
      exact Hpost.
    - rewrite Hpipe3, Hsent, Hpipe1. reflexivity. }
  split.
  - intros Hfmt Hg. rewrite <- Hpipe1 in Hfmt. rewrite <- Hheap1 in Hg.
    assert (Hsend : exists w2,
               sendNumericalMessage (CanSignal.genericName s) (decoded s data)
                 w1 = Ok tt w2
               /\ sent (pipeline w2)
                  = sent (pipeline w1)
                    ++ [String.append
                          (cJSON_render
                             (namedJson (CanSignal.genericName s)
                                (cJSON_Number
                                   (double_of_float (decoded s data)))))
                          CRLF]).
    { unfold sendNumericalMessage.
      rewrite (bind_step _ _ _ _ _ (strcpy_fits _ _ w1 Hname)).
      destruct (sendMessage_json w1
                  (numericalVehicleMessage (CanSignal.genericName s)
                     (decoded s data)) _ _ Hfmt Hg
                  (or_introl (conj eq_refl (conj eq_refl eq_refl))))
        as (w2 & Hrun & Hsent & _).
      exists w2. split; [exact Hrun|exact Hsent]. }
    destruct Hsend as (w2 & Hsend & Hsent).
    apply (Hfinish w2 _ Hsend Hsent).
  - intros Hfmt bytes Henc. rewrite <- Hpipe1 in Hfmt.
    assert (Hsend : exists w2,
               sendNumericalMessage (CanSignal.genericName s) (decoded s data)
                 w1 = Ok tt w2
               /\ sent (pipeline w2) = sent (pipeline w1) ++ [bytes]).
    { unfold sendNumericalMessage.
      rewrite (bind_step _ _ _ _ _ (strcpy_fits _ _ w1 Hname)).
      destruct (sendMessage_proto w1
                  (numericalVehicleMessage (CanSignal.genericName s)
                     (decoded s data)) Hfmt) as (w2 & Hrun & Hsent).
      rewrite Henc in Hsent. exists w2. split; [exact Hrun|exact Hsent]. }
    destruct Hsend as (w2 & Hsend & Hsent).
    apply (Hfinish w2 _ Hsend Hsent).
Qed.

End TranslateMore.

(** ** More on the passthrough path *)

Section PassthroughMore.
Context `{E : Externals}.

Lemma passthroughMessage_known_result w bus id data i m w1 :
  lookupMessageDefinition bus id (messages w) = Some i ->
  messages w !! i = Some m ->
  passthroughMessage bus id data w = Ok tt w1 ->
  messages w1
  = <[i := CanMessageDefinition.set_lastValue data
             (CanMessageDefinition.set_frequencyClock
                (shouldTick (uptime w) (CanMessageDefinition.frequencyClock m)).2
                m)]> (messages w)
  /\ signals w1 = signals w /\ uptime w1 = uptime w.
Proof.
  intros Hlook Hi Hrun.
  rewrite (passthroughMessage_known _ _ _ data _ _ Hlook Hi) in Hrun.
  apply bind_Ok_inv in Hrun as (u & w2 & Hemit & Hstore).
  apply io_only_emit_raw in Hemit as (Hsig & Hmsgs & Hup & _).
  simpl in Hsig, Hmsgs, Hup.
  assert (Hi2 : messages w2 !! i
                = Some (CanMessageDefinition.set_frequencyClock
                          (shouldTick (uptime w)
                             (CanMessageDefinition.frequencyClock m)).2 m))
    by (rewrite Hmsgs; apply (lookup_insert_same _ _ _ _ Hi)).
  rewrite (store_message_eq _ _ _ _ Hi2) in Hstore.
  injection Hstore as <-. simpl.
  rewrite Hmsgs, list_insert_insert_eq. auto.
Qed.


(** X18. [passthroughMessage] never touches the signals or the time; for a
    known message it rewrites that one table entry and nothing else in the
    table, and the entry keeps its bus, its id and its [forceSendChanged]. *)
Theorem passthroughMessage_touches_one_entry w bus id data i m w1 :
  lookupMessageDefinition bus id (messages w) = Some i ->
  messages w !! i = Some m ->
  passthroughMessage bus id data w = Ok tt w1 ->
  signals w1 = signals w /\ uptime w1 = uptime w
  /\ length (messages w1) = length (messages w)
  /\ (forall j, j <> i -> messages w1 !! j = messages w !! j)
  /\ exists m',
       messages w1 !! i = Some m'
       /\ CanMessageDefinition.bus m' = CanMessageDefinition.bus m
       /\ CanMessageDefinition.id m' = CanMessageDefinition.id m
       /\ CanMessageDefinition.forceSendChanged m'
          = CanMessageDefinition.forceSendChanged m.
Proof.
  intros Hlook Hi Hrun.
  destruct (passthroughMessage_known_result _ _ _ _ _ _ _ Hlook Hi Hrun)
    as (Hmsgs & Hsig & Hup).
  split; [exact Hsig|]. split; [exact Hup|]. rewrite Hmsgs.
  split; [apply length_insert|]. split.
  - intros j Hj. apply list_lookup_insert_ne. congruence.
  - eexists. split; [apply (lookup_insert_same _ _ _ _ Hi)|]. repeat split.
Qed.

End PassthroughMore.

(** ** The further properties at work on the reference platform *)

Lemma translateSignal_sends_at_most_one_witness :
  (forall signal value send, silent (passthroughHandler signal value send))
  /\ (forall signal value send,
        silent (@stateHandler (Reference.platform 2) signal value send))
  /\ (forall signal value send, silent (booleanHandler signal value send))
  /\ sends_at_most_one
       (@translateSignal_float (Reference.platform 2) 0 sample_frame
          passthroughHandler).
Proof.
  assert (Hp : forall signal value send,
             silent (passthroughHandler signal value send))
    by (intros; apply silent_ret).
  assert (Hb : forall signal value send,
             silent (booleanHandler signal value send))
    by (intros; apply silent_ret).
  assert (Hs : forall signal value send,
             silent (@stateHandler (Reference.platform 2) signal value send)).
  { intros signal value send w r w' Hrun.
    destruct (@builtin_pure (Reference.platform 2)) as (_ & _ & _ & Hpure).
    rewrite (Hpure _ _ _ _ _ _ Hrun). reflexivity. }
  split; [exact Hp|]. split; [exact Hs|]. split; [exact Hb|].
  apply (@translateSignal_sends_at_most_one (Reference.platform 2)
           passthroughHandler stateHandler booleanHandler 0%nat sample_frame
           Hp Hs Hb).
Defined.

Lemma named_value_json_witness :
  outputFormat (pipeline (sample_world JSON 0)) = JSON
  /\ granted 4 (heap (sample_world JSON 0)) = true
  /\ (String.length "door_open" < @name_size (Reference.platform 2))%nat
  /\ exists w',
       @sendBooleanMessage (Reference.platform 2) "door_open" true
         (sample_world JSON 0) = Ok tt w'
       /\ length (sent (pipeline w')) = 1%nat.
Proof.
  split; [reflexivity|]. split; [reflexivity|].
  assert (Hfit : (String.length "door_open"
                  < @name_size (Reference.platform 2))%nat)
    by (vm_compute; lia).
  split; [exact Hfit|].
  destruct (@named_value_json (Reference.platform 2) (sample_world JSON 0)
              "door_open" fzero true "" eq_refl eq_refl Hfit)
    as (_ & (w' & Hrun & Hsent & _) & _).
  exists w'. split; [exact Hrun|]. rewrite Hsent. reflexivity.
Defined.

Lemma named_value_proto_witness :
  outputFormat (pipeline (sample_world PROTO 0)) = PROTO
  /\ (String.length "speed" < @name_size (Reference.platform 2))%nat
  /\ exists w',
       @sendNumericalMessage (Reference.platform 2) "speed" (float_of_Z 100)
         (sample_world PROTO 0) = Ok tt w'
       /\ length (sent (pipeline w')) = 1%nat.
Proof.
  split; [reflexivity|].
  assert (Hfit : (String.length "speed" < @name_size (Reference.platform 2))%nat)
    by (vm_compute; lia).
  split; [exact Hfit|].
  destruct (@named_value_proto (Reference.platform 2) (sample_world PROTO 0)
              "speed" (float_of_Z 100) true "" eq_refl Hfit)
    as ((w' & Hrun & Hsent) & _).
  exists w'. split; [exact Hrun|].
  destruct (pb_encode_delimited _) as [bytes|] eqn:Henc.
  - rewrite Hsent. reflexivity.
  - vm_compute in Henc. discriminate Henc.
Defined.

Lemma preTranslate_received_sticky_witness :
  signals (sample_world JSON 2000) !! 0%nat = Some sample_signal
  /\ exists v b w' s',
       @preTranslate (Reference.platform 2) 0 sample_frame false
         (sample_world JSON 2000) = Ok (v, b) w'
       /\ signals w' !! 0%nat = Some s'
       /\ CanSignal.received s' = true.
Proof.
  split; [reflexivity|].
  destruct (@preTranslate_received_sticky (Reference.platform 2)
              (sample_world JSON 2000) 0%nat sample_signal sample_frame false
              eq_refl) as (v & b & w' & s' & Hrun & Hs' & Hrecv).
  exists v, b, w', s'. split; [exact Hrun|]. split; [exact Hs'|exact Hrecv].
Defined.

Lemma long_name_overflows_witness :
  (@name_size (Reference.platform 2) <= String.length long_name)%nat
  /\ @sendNumericalMessage (Reference.platform 2) long_name fzero
       (sample_world JSON 0) = Undefined.
Proof.
  assert (Hlong : (@name_size (Reference.platform 2)
                   <= String.length long_name)%nat)
    by (vm_compute; lia).
  split; [exact Hlong|].
  destruct (@long_name_overflows (Reference.platform 2) (sample_world JSON 0)
              long_name fzero true "") as (Hname & _).
  apply (Hname Hlong).
Defined.

Lemma nan_always_changed_witness :
  signals (set_signals [nan_signal] (sample_world JSON 500)) !! 0%nat
  = Some nan_signal
  /\ is_nan (@decoded (Reference.platform 2) nan_signal 0) = true
  /\ exists w',
       @preTranslate (Reference.platform 2) 0 0 true
         (set_signals [nan_signal] (sample_world JSON 500))
       = Ok (S754_nan, true) w'.
Proof.
  split; [reflexivity|]. split; [reflexivity|].
  apply (@nan_always_changed (Reference.platform 2)
           (set_signals [nan_signal] (sample_world JSON 500)) 0%nat nan_signal 0
           eq_refl eq_refl).
Defined.

Lemma translateSignal_touches_one_signal_witness :
  pure_handler passthroughHandler
  /\ pure_handler (@stateHandler (Reference.platform 2))
  /\ pure_handler booleanHandler
  /\ signals (sample_world PROTO 2000) !! 0%nat = Some sample_signal
  /\ exists w',
       @translateSignal_float (Reference.platform 2) 0 sample_frame
         passthroughHandler (sample_world PROTO 2000) = Ok tt w'
       /\ touches_only_signal (sample_world PROTO 2000) w' 0 sample_signal.
Proof.
  destruct (@builtin_pure (Reference.platform 2)) as (Hp & Hb & _ & Hs).
  split; [exact Hp|]. split; [exact Hs|]. split; [exact Hb|].
  split; [reflexivity|].
  destruct (@translateSignal_touches_one_signal (Reference.platform 2)
              passthroughHandler stateHandler booleanHandler
              (sample_world PROTO 2000) 0%nat sample_signal sample_frame
              Hp Hs Hb eq_refl) as (Hfloat & _).
  assert (Hrun : exists w',
             @translateSignal_float (Reference.platform 2) 0 sample_frame
               passthroughHandler (sample_world PROTO 2000) = Ok tt w')
    by (eexists; vm_compute; reflexivity).
  destruct Hrun as [w' Hrun].
  exists w'. split; [exact Hrun|exact (Hfloat w' Hrun)].
Defined.

Lemma repeated_value_not_resent_witness :
  signals (sample_world JSON 2000) !! 0%nat = Some sample_signal
  /\ CanSignal.sendSame sample_signal = false
  /\ is_nan (@decoded (Reference.platform 2) sample_signal sample_frame) = false
  /\ @gateOpen (Reference.platform 2) 2000 sample_signal sample_frame = true
  /\ exists w1 w2,
       @translateSignal (Reference.platform 2) 0 sample_frame
         (sample_world JSON 2000) = Ok tt w1
       /\ @translateSignal (Reference.platform 2) 0 sample_frame
            (set_uptime 9000 w1) = Ok tt w2
       /\ pipeline w2 = pipeline w1.
Proof.
  split; [reflexivity|]. split; [reflexivity|]. split; [reflexivity|].
  split; [reflexivity|].
  assert (Hrun : exists w1,
             @translateSignal (Reference.platform 2) 0 sample_frame
               (sample_world JSON 2000) = Ok tt w1)
    by (eexists; vm_compute; reflexivity).
  destruct Hrun as [w1 Hrun].
  destruct (@repeated_value_not_resent (Reference.platform 2)
              (sample_world JSON 2000) 0%nat sample_signal sample_frame w1 9000
              eq_refl eq_refl eq_refl (or_introl eq_refl) Hrun)
    as (w2 & Hrun2 & Hpipe).
  exists w1, w2. split; [exact Hrun|]. split; [exact Hrun2|exact Hpipe].
Defined.

Lemma unmatched_state_not_sent_witness :
  signals (sample_world JSON 2000) !! 0%nat = Some sample_signal
  /\ exists w' s',
       @translateSignal_string (Reference.platform 2) 0 0
         (@stateHandler (Reference.platform 2))
         (sample_world JSON 2000) = Ok tt w'
       /\ pipeline w' = pipeline (sample_world JSON 2000)
       /\ signals w' !! 0%nat = Some s'
       /\ CanSignal.received s' = true.
Proof.
  split; [reflexivity|].
  destruct (@unmatched_state_not_sent (Reference.platform 2)
              (sample_world JSON 2000) 0%nat sample_signal 0 eq_refl eq_refl)
    as (w' & s' & Hrun & Hpipe & _ & Hs' & _ & Hrecv).
  exists w', s'. split; [exact Hrun|]. split; [exact Hpipe|].
  split; [exact Hs'|exact Hrecv].
Defined.

Lemma translateSignal_sends_decoded_witness :
  signals (sample_world JSON 2000) !! 0%nat = Some sample_signal
  /\ @gateOpen (Reference.platform 2) 2000 sample_signal sample_frame = true
  /\ (String.length (CanSignal.genericName sample_signal)
      < @name_size (Reference.platform 2))%nat
  /\ exists w',
       @translateSignal (Reference.platform 2) 0 sample_frame
         (sample_world JSON 2000) = Ok tt w'
       /\ length (sent (pipeline w')) = 1%nat.
Proof.
  split; [reflexivity|]. split; [reflexivity|].
  assert (Hfit : (String.length (CanSignal.genericName sample_signal)
                  < @name_size (Reference.platform 2))%nat)
    by (vm_compute; lia).
  split; [exact Hfit|].
  destruct (@translateSignal_sends_decoded (Reference.platform 2)
              (sample_world JSON 2000) 0%nat sample_signal sample_frame
              eq_refl eq_refl Hfit) as (Hjson & _).
  destruct (Hjson eq_refl eq_refl) as (w' & Hrun & Hsent).
  exists w'. split; [exact Hrun|]. rewrite Hsent. reflexivity.
Defined.


Lemma passthroughMessage_touches_one_entry_witness :
  exists w1,
    @passthroughMessage (Reference.platform 2) sample_bus 291 5
      (sample_world PROTO 2000) = Ok tt w1
    /\ signals w1 = signals (sample_world PROTO 2000)
    /\ length (messages w1) = 1%nat.
Proof.
  assert (Hrun : exists w1,
             @passthroughMessage (Reference.platform 2) sample_bus 291 5
               (sample_world PROTO 2000) = Ok tt w1)
    by (eexists; vm_compute; reflexivity).
  destruct Hrun as (w1 & Hrun).
  destruct (@passthroughMessage_touches_one_entry (Reference.platform 2)
              (sample_world PROTO 2000) sample_bus 291 5 0%nat sample_message
              w1 eq_refl eq_refl Hrun) as (Hsig & _ & Hlen & _).
  exists w1. split; [exact Hrun|]. split; [exact Hsig|exact Hlen].
Defined.
